(** * kick-chat-logger: the ingestion supervisor, its session loop and the
      channel-name sanitizer, embedded from the Python sources.

    Layout: the definitions come first, one block per source module
    ([utils/sanitize_validate.py], [config.py], [kick_api.py],
    [kick_chat_listener.py], [cli.py], [storage.py]); the theorems
    follow. *)

From Stdlib Require Import ZArith NArith QArith Qminmax Lia Bool Ascii String List.
From stdpp Require Import gmap strings list.

Local Open Scope bool_scope.

(* ===================================================================== *)
(** ** Python [str] values whose characters matter                        *)
(* ===================================================================== *)

(** A Python [str] is a sequence of Unicode code points.  The sanitizer
    looks at individual characters, so channel names are kept as lists of
    code points rather than as byte strings. *)
Abbreviation pystr := (list N).

Definition pystr_of (s : string) : pystr :=
  map (fun a => N_of_ascii a) (list_ascii_of_string s).

Definition is_ascii (c : N) : bool := (c <? 128)%N.
Definition is_ascii_upper (c : N) : bool := (65 <=? c)%N && (c <=? 90)%N.
Definition is_ascii_lower (c : N) : bool := (97 <=? c)%N && (c <=? 122)%N.
Definition is_ascii_digit (c : N) : bool := (48 <=? c)%N && (c <=? 57)%N.
Definition underscore : N := 95%N.

Definition ascii_lower (c : N) : N :=
  if is_ascii_upper c then (c + 32)%N else c.

(** [str.isspace] for one code point: the characters [str.strip()] removes
    when it is called without an argument. *)
Definition is_space (c : N) : bool :=
  ((9 <=? c) && (c <=? 13) || (28 <=? c) && (c <=? 32)
   || (c =? 133) || (c =? 160) || (c =? 5760)
   || (8192 <=? c) && (c <=? 8202)
   || (c =? 8232) || (c =? 8233) || (c =? 8239) || (c =? 8287)
   || (c =? 12288))%N.

(** [str.lower()] follows the Unicode case tables (with multi-character
    results and a context rule for the Greek sigma), which are not part of
    the repository.  The model takes it as an interface with the two facts
    about it that the sanitizer relies on. *)
Class PyUnicode := {
  str_lower : pystr -> pystr;
  str_lower_ascii :
    forall s, forallb is_ascii s = true -> str_lower s = map ascii_lower s;
  str_lower_no_upper :
    forall s c, In c (str_lower s) -> is_ascii_upper c = false
}.

Fixpoint lstrip (s : pystr) : pystr :=
  match s with
  | c :: r => if is_space c then lstrip r else s
  | [] => []
  end.

Definition rstrip (s : pystr) : pystr := rev (lstrip (rev s)).

(** [s.strip()] *)
Definition str_strip (s : pystr) : pystr := rstrip (lstrip s).

(* ===================================================================== *)
(** ** utils/sanitize_validate.py                                         *)
(* ===================================================================== *)

Module Sanitize.

(** the character class [a-zA-Z0-9_] of the regular expression *)
Definition in_class (c : N) : bool :=
  is_ascii_lower c || is_ascii_upper c || is_ascii_digit c
  || (c =? underscore)%N.

(** [re.sub(r"[^a-zA-Z0-9_]", "_", s)]: every character outside the class
  is replaced, one for one. *)
Definition re_sub_invalid (s : pystr) : pystr :=
  map (fun c => if in_class c then c else underscore) s.

Definition CHANNEL_TABLE_PREFIX : pystr := pystr_of "kickchat_".

(** Character by character as the specification words it: a character of
    [a-zA-Z0-9_] stays, any other becomes an underscore. *)
Fixpoint spec_sanitize_chars (s : pystr) : pystr :=
  match s with
  | [] => []
  | c :: r =>
      (if is_ascii_lower c || is_ascii_upper c || is_ascii_digit c
          || (c =? underscore)%N
       then c else underscore) :: spec_sanitize_chars r
  end.

Section WithUnicode.
Context `{PyUnicode}.

Definition sanitize_channel_name (name : pystr) : pystr :=
    let normalized := str_strip (str_lower name) in
    let sanitized := re_sub_invalid normalized in
    sanitized.

Definition get_channel_table_name (channel_name : pystr) : pystr :=
    let sanitized := sanitize_channel_name channel_name in
    CHANNEL_TABLE_PREFIX ++ sanitized.

(** The sanitizer as the specification words it: lowercase the name, then
    map every character outside [a-zA-Z0-9_] to an underscore. *)
Definition spec_sanitize (name : pystr) : pystr :=
  spec_sanitize_chars (str_lower name).

End WithUnicode.

(** the characters a storage key may contain: [a-z0-9_] *)
Definition key_char (c : N) : bool :=
  is_ascii_lower c || is_ascii_digit c || (c =? underscore)%N.

(** A case table that lowers the ASCII letters and leaves every other
  code point alone: the smallest instance of the interface. *)
Definition ascii_only_lower (s : pystr) : pystr := map ascii_lower s.

#[export] Instance AsciiCaseTable : PyUnicode.
Proof.
  refine {| str_lower := ascii_only_lower |}.
  - intros s _. reflexivity.
  - intros s c Hc. apply in_map_iff in Hc. destruct Hc as (d & <- & _).
    unfold ascii_lower. destruct (is_ascii_upper d) eqn:E; [|exact E].
    unfold is_ascii_upper in *.
    apply andb_true_iff in E. destruct E as [E1 E2].
    apply N.leb_le in E1. apply N.leb_le in E2.
    apply andb_false_iff. right. apply N.leb_gt. lia.
Defined.

End Sanitize.

(* ===================================================================== *)
(** ** Python values and exceptions                                       *)
(* ===================================================================== *)

(** Decoded JSON, as [json.loads] builds it.  An object is a Python [dict]:
    keys in insertion order, one binding per key.  A number without
    fraction or exponent is an [int]; any other number keeps its literal. *)
#[warnings="-register-all"]
Inductive json : Type :=
| JNull
| JBool (b : bool)
| JInt (z : Z)
| JFloat (literal : string)
| JStr (s : string)
| JArr (items : list json)
| JObj (fields : list (string * json)).

(** A close frame of the websockets library: [Close(code, reason)]. *)
Record Close := { close_code : Z; close_reason : string }.

(** The exceptions the modelled code raises, lets through or catches.
    [CancelledError] derives from [BaseException], every other one from
    [Exception]. *)
Inductive py_exn : Type :=
| JSONDecodeError
| ValueError
| AttributeError
| TypeError
| OSError
| ConnectionClosed (rcvd sent : option Close)
| CancelledError.

Definition is_Exception (e : py_exn) : bool :=
  match e with CancelledError => false | _ => true end.

(** [ConnectionClosed.code] of the websockets library: the code of the
    close frame that was received, and 1006 (abnormal closure) when none
    was received.  The frame that was sent does not enter into it. *)
Definition closed_code (rcvd : option Close) : Z :=
  match rcvd with
  | Some c => close_code c
  | None => 1006%Z
  end.

Inductive res (A : Type) : Type :=
| Ok (a : A)
| Raise (e : py_exn).
Arguments Ok {A} a.
Arguments Raise {A} e.

Fixpoint dict_lookup (k : string) (fields : list (string * json)) : option json :=
  match fields with
  | [] => None
  | (k', v) :: rest => if String.eqb k k' then Some v else dict_lookup k rest
  end.

(** [d.get(k, default)] *)
Definition dict_get (fields : list (string * json)) (k : string) (default : json) : json :=
  match dict_lookup k fields with
  | Some v => v
  | None => default
  end.

(** [d[k] = v]: an existing key keeps its place. *)
Fixpoint dict_set (k : string) (v : json) (fields : list (string * json))
  : list (string * json) :=
  match fields with
  | [] => [(k, v)]
  | (k', v') :: rest =>
      if String.eqb k k' then (k, v) :: rest else (k', v') :: dict_set k v rest
  end.

Definition lit_digit (a : ascii) : bool :=
  (48 <=? N_of_ascii a)%N && (N_of_ascii a <=? 57)%N.

Fixpoint lit_digits (l : list ascii) (acc : Z) (n : Z) : Z * Z * list ascii :=
  match l with
  | a :: r =>
      if lit_digit a
      then lit_digits r (10 * acc + (Z.of_N (N_of_ascii a) - 48))%Z (n + 1)%Z
      else (acc, n, l)
  | [] => (acc, n, [])
  end.

(** A number literal read as [mantissa * 10 ^ exponent]: the digits before
    and after the point make the mantissa; [None] for a text that is not a
    decimal literal ([NaN], [Infinity]). *)
Definition lit_decimal (l : list ascii) : option (Z * Z) :=
  let l0 := match l with
            | a :: r => if (N_of_ascii a =? 45)%N then r else l
            | [] => l
            end in
  let '(m1, n1, l1) := lit_digits l0 0%Z 0%Z in
  let '(m2, n2, l2) :=
    match l1 with
    | a :: r => if (N_of_ascii a =? 46)%N then lit_digits r m1 0%Z else (m1, 0%Z, l1)
    | [] => (m1, 0%Z, l1)
    end in
  let '(e, n3, l3) :=
    match l2 with
    | a :: r =>
        if ((N_of_ascii a =? 101) || (N_of_ascii a =? 69))%N then
          match r with
          | b :: r' =>
              if (N_of_ascii b =? 45)%N
              then let '(v, n, rest) := lit_digits r' 0%Z 0%Z in ((- v)%Z, n, rest)
              else if (N_of_ascii b =? 43)%N then lit_digits r' 0%Z 0%Z
              else lit_digits r 0%Z 0%Z
          | [] => (0%Z, 0%Z, r)
          end
        else (0%Z, 1%Z, l2)
    | [] => (0%Z, 1%Z, l2)
    end in
  match l3 with
  | [] =>
      if ((n1 + n2 =? 0) || (n3 =? 0))%Z then None else Some (m2, (e - n2)%Z)
  | _ => None
  end.

(** Whether [float(literal)] is zero.  Python rounds the literal to the
    nearest double, ties to even: the result is 0.0 exactly when the value
    is at most 2^-1075, half the smallest positive double. *)
Definition float_is_zero (lit : string) : bool :=
  match lit_decimal (list_ascii_of_string lit) with
  | None => false
  | Some (m, e) =>
      (m =? 0)%Z
      || ((e <? 0)%Z && (m * 2 ^ 1075 <=? 10 ^ (- e))%Z)
  end.

(** Python truth value ([bool(v)], as [not v] and [if v] use it). *)
Definition truthy (v : json) : bool :=
  match v with
  | JNull => false
  | JBool b => b
  | JInt z => negb (z =? 0)%Z
  | JFloat lit => negb (float_is_zero lit)
  | JStr s => match s with EmptyString => false | _ => true end
  | JArr items => match items with [] => false | _ => true end
  | JObj fields => match fields with [] => false | _ => true end
  end.

(** [v in S] for a set [S] of strings: a list or dict cannot be hashed, any
    other value is looked up and only a string can be found. *)
Definition py_in (v : json) (S : list string) : res bool :=
  match v with
  | JArr _ | JObj _ => Raise TypeError
  | JStr s => Ok (existsb (String.eqb s) S)
  | _ => Ok false
  end.

(* ===================================================================== *)
(** ** A reference decoder                                                *)
(* ===================================================================== *)

(** [json.loads] belongs to the Python library; the model of the program
    takes the decoder as a parameter [json_loads : string -> option json]
    ([None] for [JSONDecodeError]) and its theorems hold for every decoder.
    [json_loads_ref] below decodes the JSON grammar except for [\u] escapes
    and the non-standard literals [NaN] and [Infinity]; it supplies the
    decoder wherever a concrete run is evaluated. *)
Module JsonRef.

Definition is_ws (a : ascii) : bool :=
  let n := N_of_ascii a in
  ((n =? 32) || (n =? 9) || (n =? 10) || (n =? 13))%N.

Definition is_digit (a : ascii) : bool :=
  (48 <=? N_of_ascii a)%N && (N_of_ascii a <=? 57)%N.

Definition digit_val (a : ascii) : Z := (Z.of_N (N_of_ascii a) - 48)%Z.

Fixpoint skip_ws (l : list ascii) : list ascii :=
  match l with
  | a :: r => if is_ws a then skip_ws r else l
  | [] => []
  end.

Definition unescape (a : ascii) : option ascii :=
  let n := N_of_ascii a in
  if (n =? 34)%N then Some a                    (* quote *)
  else if (n =? 92)%N then Some a               (* backslash *)
  else if (n =? 47)%N then Some a               (* slash *)
  else if (n =? 98)%N then Some (ascii_of_N 8)  (* b *)
  else if (n =? 102)%N then Some (ascii_of_N 12) (* f *)
  else if (n =? 110)%N then Some (ascii_of_N 10) (* n *)
  else if (n =? 114)%N then Some (ascii_of_N 13) (* r *)
  else if (n =? 116)%N then Some (ascii_of_N 9)  (* t *)
  else None.

(** the characters of a string literal after its opening quote *)
Fixpoint string_body (l : list ascii) (acc : list ascii)
  : option (string * list ascii) :=
  match l with
  | [] => None
  | a :: r =>
      let n := N_of_ascii a in
      if (n =? 34)%N then Some (string_of_list_ascii (rev acc), r)
      else if (n =? 92)%N then
        match r with
        | b :: r' =>
            match unescape b with
            | Some c => string_body r' (c :: acc)
            | None => None
            end
        | [] => None
        end
      else if (n <? 32)%N then None
      else string_body r (a :: acc)
  end.

Fixpoint take_digits (l : list ascii) (acc : list ascii)
  : list ascii * list ascii :=
  match l with
  | a :: r => if is_digit a then take_digits r (a :: acc) else (rev acc, l)
  | [] => (rev acc, [])
  end.

Definition digits_value (ds : list ascii) : Z :=
  fold_left (fun v a => (10 * v + digit_val a)%Z) ds 0%Z.

(** the integer part: a lone 0, or digits that do not start with 0 *)
Definition int_part (l : list ascii) : option (list ascii * list ascii) :=
  match take_digits l [] with
  | ([], _) => None
  | (a :: ds, rest) =>
      if (N_of_ascii a =? 48)%N
      then match ds with [] => Some ([a], rest) | _ => None end
      else Some (a :: ds, rest)
  end.

Definition frac_part (l : list ascii) : option (list ascii * list ascii) :=
  match l with
  | a :: r =>
      if (N_of_ascii a =? 46)%N then
        match take_digits r [] with
        | ([], _) => None
        | (ds, rest) => Some (a :: ds, rest)
        end
      else Some ([], l)
  | [] => Some ([], [])
  end.

Definition exp_part (l : list ascii) : option (list ascii * list ascii) :=
  match l with
  | a :: r =>
      if ((N_of_ascii a =? 101) || (N_of_ascii a =? 69))%N then
        let '(sign, r1) :=
          match r with
          | b :: r' =>
              if ((N_of_ascii b =? 43) || (N_of_ascii b =? 45))%N
              then ([b], r') else ([], r)
          | [] => ([], r)
          end in
        match take_digits r1 [] with
        | ([], _) => None
        | (ds, rest) => Some (a :: sign ++ ds, rest)
        end
      else Some ([], l)
  | [] => Some ([], [])
  end.

Definition number (l : list ascii) : option (json * list ascii) :=
  let '(neg, l1) :=
    match l with
    | a :: r => if (N_of_ascii a =? 45)%N then ([a], r) else ([], l)
    | [] => ([], l)
    end in
  match int_part l1 with
  | None => None
  | Some (ds, l2) =>
      match frac_part l2 with
      | None => None
      | Some (fr, l3) =>
          match exp_part l3 with
          | None => None
          | Some (ex, l4) =>
              match fr, ex with
              | [], [] =>
                  let v := digits_value ds in
                  Some (JInt (match neg with [] => v | _ => - v end)%Z, l4)
              | _, _ =>
                  Some (JFloat (string_of_list_ascii (neg ++ ds ++ fr ++ ex)), l4)
              end
          end
      end
  end.

Fixpoint strip_prefix (p l : list ascii) : option (list ascii) :=
  match p, l with
  | [], _ => Some l
  | a :: p', b :: l' => if Ascii.eqb a b then strip_prefix p' l' else None
  | _ :: _, [] => None
  end.

Definition keyword (w : string) (v : json) (l : list ascii)
  : option (json * list ascii) :=
  match strip_prefix (list_ascii_of_string w) l with
  | Some rest => Some (v, rest)
  | None => None
  end.

(** One value at the head of [l]; [elements] and [members] read the rest of
    an array after an element and of an object after a member. *)
Fixpoint value (fuel : nat) (l : list ascii) {struct fuel}
  : option (json * list ascii) :=
  match fuel with
  | O => None
  | S fuel' =>
      match skip_ws l with
      | [] => None
      | a :: r =>
          let n := N_of_ascii a in
          if (n =? 123)%N then                       (* open brace *)
            match skip_ws r with
            | b :: r' =>
                if (N_of_ascii b =? 125)%N then Some (JObj [], r')
                else members fuel' (b :: r') []
            | [] => None
            end
          else if (n =? 91)%N then                   (* open bracket *)
            match skip_ws r with
            | b :: r' =>
                if (N_of_ascii b =? 93)%N then Some (JArr [], r')
                else elements fuel' (b :: r') []
            | [] => None
            end
          else if (n =? 34)%N then
            match string_body r [] with
            | Some (s, rest) => Some (JStr s, rest)
            | None => None
            end
          else if (n =? 116)%N then keyword "true" (JBool true) (a :: r)
          else if (n =? 102)%N then keyword "false" (JBool false) (a :: r)
          else if (n =? 110)%N then keyword "null" JNull (a :: r)
          else number (a :: r)
      end
  end
with elements (fuel : nat) (l : list ascii) (acc : list json) {struct fuel}
  : option (json * list ascii) :=
  match fuel with
  | O => None
  | S fuel' =>
      match value fuel' l with
      | None => None
      | Some (v, rest) =>
          match skip_ws rest with
          | b :: r' =>
              if (N_of_ascii b =? 44)%N then elements fuel' r' (v :: acc)
              else if (N_of_ascii b =? 93)%N then Some (JArr (rev (v :: acc)), r')
              else None
          | [] => None
          end
      end
  end
with members (fuel : nat) (l : list ascii) (acc : list (string * json))
  {struct fuel} : option (json * list ascii) :=
  match fuel with
  | O => None
  | S fuel' =>
      match skip_ws l with
      | q :: r =>
          if (N_of_ascii q =? 34)%N then
            match string_body r [] with
            | None => None
            | Some (k, rest) =>
                match skip_ws rest with
                | c :: r1 =>
                    if (N_of_ascii c =? 58)%N then
                      match value fuel' r1 with
                      | None => None
                      | Some (v, rest') =>
                          let acc' := dict_set k v acc in
                          match skip_ws rest' with
                          | b :: r' =>
                              if (N_of_ascii b =? 44)%N then members fuel' r' acc'
                              else if (N_of_ascii b =? 125)%N then Some (JObj acc', r')
                              else None
                          | [] => None
                          end
                      end
                    else None
                | [] => None
                end
            end
          else None
      | [] => None
      end
  end.

Definition json_loads_ref (s : string) : option json :=
  let l := list_ascii_of_string s in
  match value (S (List.length l)) l with
  | Some (v, rest) => match skip_ws rest with [] => Some v | _ => None end
  | None => None
  end.

End JsonRef.

(* ===================================================================== *)
(** ** config.py                                                          *)
(* ===================================================================== *)

Module Config.

Definition CHAT_MESSAGE_EVENT : string := "App\Events\ChatMessageEvent".
Definition SUBSCRIPTION_EVENT : string := "App\Events\SubscriptionEvent".
Definition USER_BANNED_EVENT : string := "App\Events\UserBannedEvent".
Definition USER_UNBANNED_EVENT : string := "App\Events\UserUnbannedEvent".
Definition MESSAGE_DELETED_EVENT : string := "App\Events\MessageDeletedEvent".
Definition PINNED_MESSAGE_CREATED_EVENT : string :=
  "App\Events\PinnedMessageCreatedEvent".
Definition CHAT_MESSAGE_SENT_EVENT : string := "App\Events\ChatMessageSentEvent".
Definition CHATROOM_UPDATED_EVENT : string := "App\Events\ChatroomUpdatedEvent".
Definition STREAM_HOST_EVENT : string := "App\Events\StreamHostEvent".
Definition PINNED_MESSAGE_DELETED_EVENT : string :=
  "App\Events\PinnedMessageDeletedEvent".
Definition CHATROOM_CLEAR_EVENT : string := "App\Events\ChatroomClearEvent".
Definition POLL_UPDATE_EVENT : string := "App\Events\PollUpdateEvent".
Definition POLL_DELETE_EVENT : string := "App\Events\PollDeleteEvent".
Definition PUSHER_CONNECTION_ESTABLISHED_EVENT : string :=
  "pusher:connection_established".
Definition PUSHER_INTERNAL_SUBSCRIPTION_SUCCEEDED_EVENT : string :=
  "pusher_internal:subscription_succeeded".

Definition HANDLED_EVENTS : list string :=
  [ CHAT_MESSAGE_EVENT;
    SUBSCRIPTION_EVENT;
    USER_BANNED_EVENT;
    USER_UNBANNED_EVENT;
    MESSAGE_DELETED_EVENT;
    PINNED_MESSAGE_CREATED_EVENT;
    CHAT_MESSAGE_SENT_EVENT;
    CHATROOM_UPDATED_EVENT;
    STREAM_HOST_EVENT;
    PINNED_MESSAGE_DELETED_EVENT;
    CHATROOM_CLEAR_EVENT ].

Definition IGNORED_EVENTS : list string :=
  [ PUSHER_CONNECTION_ESTABLISHED_EVENT;
    PUSHER_INTERNAL_SUBSCRIPTION_SUCCEEDED_EVENT;
    POLL_UPDATE_EVENT;
    POLL_DELETE_EVENT ].

Definition PING_INTERVAL_MINUTES : Z := 60.

End Config.

(* ===================================================================== *)
(** ** kick_api.py                                                        *)
(* ===================================================================== *)

Module KickApi.

(** [data] is [JNull] where the Python field is [None]. *)
Record ApiResult := {
  success : bool;
  data : json;
  status_code : option Z
}.

(** What [curl_cffi.get] does: it answers with a status and a body, times
    out, or fails with an exception of its own that nobody catches. *)
Inductive http_outcome : Type :=
| HttpResponse (status : Z) (body : string)
| HttpTimeout
| HttpError.

Section WithDecoder.
Variable json_loads : string -> option json.

(** [response.json()] raises the [JSONDecodeError] of the [json] module on
    a body that does not decode; the handler names the subclass of
    [curl_cffi] and does not catch it, so the exception leaves the
    function. *)
Definition _handle_channel_response (status : Z) (body : string) : res ApiResult :=
  if (status =? 200)%Z then
    match json_loads body with
    | Some d => Ok {| success := true; data := d; status_code := Some 200%Z |}
    | None => Raise JSONDecodeError
    end
  else if (status =? 403)%Z then
    Ok {| success := false; data := JNull; status_code := Some 403%Z |}
  else if (status =? 404)%Z then
    Ok {| success := false; data := JNull; status_code := Some 404%Z |}
  else
    Ok {| success := false; data := JNull; status_code := Some status |}.

Definition get_channel_info (http : http_outcome) : res ApiResult :=
  match http with
  | HttpResponse status body => _handle_channel_response status body
  | HttpTimeout => Ok {| success := false; data := JNull; status_code := None |}
  | HttpError => Raise OSError
  end.

End WithDecoder.
End KickApi.

(* ===================================================================== *)
(** ** kick_chat_listener.py                                              *)
(* ===================================================================== *)

Module Listener.
Import Config KickApi.

Record KickEvent := { event : string; event_data : json }.

(** What the session has done to the outside: connections opened,
    messages sent with [ws.send], lines appended to the unhandled-messages
    file (each the message it dumps), and calls of [storage.store_event].
    The pings of the keepalive ([ws.ping]) and the close frame that the
    library sends when the connection is left are not recorded. *)
Inductive ws_frame : Type :=
| Subscribe (chatroom_id : json).

Record world := {
  connections : nat;
  sent_frames : list ws_frame;
  unhandled_log : list json;
  store_calls : list (string * KickEvent)
}.

Definition world0 : world :=
  {| connections := 0; sent_frames := []; unhandled_log := []; store_calls := [] |}.

Definition open_connection (w : world) : world :=
  {| connections := S (connections w); sent_frames := sent_frames w;
     unhandled_log := unhandled_log w; store_calls := store_calls w |}.

Definition send_frame (f : ws_frame) (w : world) : world :=
  {| connections := connections w; sent_frames := sent_frames w ++ [f];
     unhandled_log := unhandled_log w; store_calls := store_calls w |}.

(** [_log_unhandled_message]: one line appended *)
Definition _log_unhandled_message (message : json) (w : world) : world :=
  {| connections := connections w; sent_frames := sent_frames w;
     unhandled_log := unhandled_log w ++ [message];
     store_calls := store_calls w |}.

Definition store_event (channel_name : string) (ev : KickEvent) (w : world) : world :=
  {| connections := connections w; sent_frames := sent_frames w;
     unhandled_log := unhandled_log w;
     store_calls := store_calls w ++ [(channel_name, ev)] |}.

(** What a call of [storage.store_event] comes back with: its flag, or an
    exception.  It prepares the row outside its [try], so an event whose
    payload is not of the shape the preparation reads (not an object, for
    one) makes it raise once the channel is validated. *)
Inductive store_result : Type :=
| StoreReturns (ok : bool)
| StoreRaises (e : py_exn).

(** What the awaits of one pass through the receive loop come back with. *)
Inductive ping_outcome : Type :=
| PongReceived
| PongTimeout
| PingClosed (rcvd sent : option Close).

Inductive recv_outcome : Type :=
| RecvTimeout
| RecvText (raw : string)
| RecvClosed (rcvd sent : option Close)
| RecvCancelled.

Record tick := {
  stop_is_set : bool;        (* [stop_event.is_set()] at the loop test *)
  current_time : Z;          (* [time.time()], in seconds *)
  ping : ping_outcome;       (* looked at only when a ping is due *)
  recv : recv_outcome;
  store : store_result       (* what [store_event] does, if called *)
}.

Inductive connect_outcome : Type :=
| Connected
| ConnectFails (e : py_exn).

Inductive send_outcome : Type :=
| Sent
| SendFails (e : py_exn).

(** One attempt as the environment plays it. *)
Record session := {
  lookup : http_outcome;
  start_time : Z;
  connect : connect_outcome;
  subscribe : send_outcome;
  ticks : list tick
}.

(** How [listen_to_chat] ends; [Pending] when the ticks run out with the
    loop still going. *)
Inductive outcome : Type :=
| Returned
| Raised (e : py_exn)
| Pending.

Record loop_state := {
  last_ping_time : Z;
  consecutive_ping_failures : Z
}.

Definition ping_timeout_closure : py_exn :=
  ConnectionClosed None (Some {| close_code := 1011; close_reason := "Ping timeout" |}).

Section WithDecoder.
Variable json_loads : string -> option json.

Definition get_chatroom_id (http : http_outcome) : res json :=
  match get_channel_info json_loads http with
  | Raise e => Raise e
  | Ok channel_info_result =>
      if negb (success channel_info_result)
         || negb (truthy (data channel_info_result))
      then Ok JNull
      else
        match data channel_info_result with
        | JObj fields =>
            match dict_get fields "chatroom" (JObj []) with
            | JObj chatroom => Ok (dict_get chatroom "id" JNull)
            | _ => Raise AttributeError
            end
        | _ => Ok JNull
        end
  end.

Definition parse_event (message : list (string * json)) : res KickEvent :=
  match dict_get message "event" JNull with
  | JStr event_type =>
      match dict_get message "data" (JStr "{}") with
      | JStr data_str =>
          match json_loads data_str with
          | Some parsed_data => Ok {| event := event_type; event_data := parsed_data |}
          | None => Raise JSONDecodeError
          end
      | parsed_data => Ok {| event := event_type; event_data := parsed_data |}
      end
  | _ => Raise ValueError
  end.

Definition handle_websocket_message (message : json) (w : world)
  : world * res (option KickEvent) :=
  match message with
  | JObj fields =>
      let event_type := dict_get fields "event" JNull in
      match py_in event_type IGNORED_EVENTS with
      | Raise e => (w, Raise e)
      | Ok true => (w, Ok None)
      | Ok false =>
          match py_in event_type HANDLED_EVENTS with
          | Raise e => (w, Raise e)
          | Ok true =>
              match parse_event fields with
              | Ok ev => (w, Ok (Some ev))
              | Raise e => (w, Raise e)
              end
          | Ok false => (_log_unhandled_message message w, Ok None)
          end
      end
  | _ => (w, Raise AttributeError)
  end.

(** The keepalive part of one pass: [Ok] with the new loop state, or the
    exception that leaves the loop. *)
Definition keepalive (t : tick) (st : loop_state) : res loop_state :=
  let ping_interval := (PING_INTERVAL_MINUTES * 20)%Z in
  let max_ping_failures := 3%Z in
  if (current_time t - last_ping_time st >? ping_interval)%Z then
    match ping t with
    | PongReceived =>
        Ok {| last_ping_time := current_time t; consecutive_ping_failures := 0 |}
    | PongTimeout =>
        let failures := (consecutive_ping_failures st + 1)%Z in
        if (failures >=? max_ping_failures)%Z
        then Raise ping_timeout_closure
        else Ok {| last_ping_time := current_time t;
                   consecutive_ping_failures := failures |}
    | PingClosed rcvd sent => Raise (ConnectionClosed rcvd sent)
    end
  else Ok st.

(** The receive part of one pass: the message is decoded, classified and,
    when an event comes back, stored. *)
Definition receive (channel_name : string) (t : tick) (w : world)
  : world * res unit :=
  match recv t with
  | RecvTimeout => (w, Ok tt)
  | RecvClosed rcvd sent => (w, Raise (ConnectionClosed rcvd sent))
  | RecvCancelled => (w, Raise CancelledError)
  | RecvText message_raw =>
      match json_loads message_raw with
      | None => (w, Raise JSONDecodeError)
      | Some message =>
          match handle_websocket_message message w with
          | (w', Raise e) => (w', Raise e)
          | (w', Ok None) => (w', Ok tt)
          | (w', Ok (Some kick_event)) =>
              match store t with
              | StoreReturns success =>
                  (store_event channel_name kick_event w', Ok tt)
              | StoreRaises e =>
                  (store_event channel_name kick_event w', Raise e)
              end
          end
      end
  end.

Fixpoint receive_loop (channel_name : string) (ts : list tick)
  (st : loop_state) (w : world) : world * outcome :=
  match ts with
  | [] => (w, Pending)
  | t :: rest =>
      if stop_is_set t then (w, Returned)
      else
        match keepalive t st with
        | Raise e => (w, Raised e)
        | Ok st' =>
            match receive channel_name t w with
            | (w', Raise e) => (w', Raised e)
            | (w', Ok _) => receive_loop channel_name rest st' w'
            end
        end
  end.

Definition listen_to_chat (channel_name : string) (s : session) (w : world)
  : world * outcome :=
  match get_chatroom_id (lookup s) with
  | Raise e => (w, Raised e)
  | Ok chatroom_id =>
      let st := {| last_ping_time := start_time s;
                   consecutive_ping_failures := 0 |} in
      if negb (truthy chatroom_id) then (w, Returned)
      else
        match connect s with
        | ConnectFails e => (w, Raised e)
        | Connected =>
            let w1 := open_connection w in
            match subscribe s with
            | SendFails e => (w1, Raised e)
            | Sent =>
                receive_loop channel_name (ticks s) st
                  (send_frame (Subscribe chatroom_id) w1)
            end
        end
  end.

End WithDecoder.
End Listener.

(* ===================================================================== *)
(** ** cli.py                                                             *)
(* ===================================================================== *)

Module Cli.
Import Listener.

(** [KickChatLogger]: the registry part of the object.  A task is known by
    its handle, an [asyncio.Event] by its flag; [next_task] numbers the
    handles so that each created task is a new one. *)
Record KickChatLogger := {
  active_tasks : gmap string nat;
  stop_events : gmap string bool;
  running : bool;
  next_task : nat
}.

Definition start_channel_scraping (channel_name : string) (self : KickChatLogger)
  : KickChatLogger * bool :=
  match active_tasks self !! channel_name with
  | Some _ => (self, true)
  | None =>
      let task := next_task self in
      ({| active_tasks := <[channel_name := task]> (active_tasks self);
          stop_events := <[channel_name := false]> (stop_events self);
          running := running self;
          next_task := S task |}, true)
  end.

(** The last statements of [_scrape_channel_with_retry], after its loop:
    the supervisor takes its own entry out of both maps. *)
Definition supervisor_epilogue (channel_name : string) (self : KickChatLogger)
  : KickChatLogger :=
  {| active_tasks := delete channel_name (active_tasks self);
     stop_events := delete channel_name (stop_events self);
     running := running self;
     next_task := next_task self |}.

Record retry_state := {
  retry_count : Z;
  connection_retry_count : Z
}.

Definition max_retries : Z := 10.
Definition max_connection_retries : Z := 50.
Definition base_delay : Z := 2.
Definition connection_base_delay : Z := 1.

Inductive stop_reason : Type :=
| LoopConditionFalse
| SessionReturned
| MaxRetriesExceeded
| MaxConnectionRetriesExceeded
| StopDuringBackoff.

(** What a handler decides: leave the loop, or wait [delay] seconds. *)
Inductive verdict : Type :=
| GiveUp (why : stop_reason)
| Backoff (delay : Q).

(** the [except websockets.exceptions.ConnectionClosed] handler, up to the
    wait *)
Definition on_connection_closed (rcvd : option Close) (rs : retry_state)
  : retry_state * verdict :=
  let connection_retry_count := (connection_retry_count rs + 1)%Z in
  let error_code := closed_code rcvd in
  if existsb (Z.eqb error_code) [4200; 1011]%Z then
    let rs' := {| retry_count := retry_count rs;
                  connection_retry_count := connection_retry_count |} in
    if (connection_retry_count >? max_connection_retries)%Z
    then (rs', GiveUp MaxConnectionRetriesExceeded)
    else
      let delay :=
        if (connection_retry_count <=? 10)%Z
        then Qmin (inject_Z connection_base_delay
                   * (3 # 2) ^ (Z.min connection_retry_count 8))%Q 30%Q
        else 30%Q in
      (rs', Backoff delay)
  else
    let retry_count := (retry_count rs + 1)%Z in
    let rs' := {| retry_count := retry_count;
                  connection_retry_count := connection_retry_count |} in
    if (retry_count >? max_retries)%Z
    then (rs', GiveUp MaxRetriesExceeded)
    else (rs', Backoff (inject_Z (base_delay * 2 ^ (retry_count - 1)))).

(** the [except Exception] handler, up to the wait *)
Definition on_exception (rs : retry_state) : retry_state * verdict :=
  let retry_count := (retry_count rs + 1)%Z in
  let rs' := {| retry_count := retry_count;
                connection_retry_count := connection_retry_count rs |} in
  if (retry_count >? max_retries)%Z
  then (rs', GiveUp MaxRetriesExceeded)
  else (rs', Backoff (inject_Z (base_delay * 2 ^ (retry_count - 1)))).

(** [asyncio.wait_for(stop_event.wait(), timeout=delay)] *)
Inductive wait_outcome : Type :=
| StopSignalled
| DelayElapsed
| WaitCancelled.

(** One turn of the supervisor's loop as the environment plays it. *)
Record round := {
  stop_set : bool;           (* [stop_event.is_set()] at the loop test *)
  self_running : bool;       (* [self.running] at the loop test *)
  attempt : session;
  wait : wait_outcome
}.

(** How the supervisor coroutine ends: it leaves its loop, an exception
    that it does not catch unwinds it, or the rounds run out with the loop
    still going. *)
Inductive sup_exit : Type :=
| Stopped (why : stop_reason)
| Unwound (e : py_exn)
| StillRunning.

Record run := {
  final : retry_state;
  attempts : nat;             (* calls of [listen_to_chat] *)
  delays : list Q;            (* the backoff delays waited on *)
  exit : sup_exit;
  after : world
}.

(** The failures that the supervisor counts on the generic track: a
    closure whose code is neither 4200 nor 1011, and any other exception
    that derives from [Exception]. *)
Definition generic_failure (o : outcome) : bool :=
  match o with
  | Raised (ConnectionClosed rcvd _) =>
      negb (existsb (Z.eqb (closed_code rcvd)) [4200; 1011]%Z)
  | Raised e => is_Exception e
  | _ => false
  end.

(** A turn in which nobody asks the supervisor to stop: the loop test
    passes and the backoff delay runs its full length. *)
Definition undisturbed (r : round) : bool :=
  negb (stop_set r) && self_running r
  && match wait r with DelayElapsed => true | _ => false end.

Section WithDecoder.
Variable json_loads : string -> option json.

(** What follows a handler: stop, or wait and go round again. *)
Definition after_handler (v : verdict) (w : wait_outcome)
  : sup_exit + Q :=
  match v with
  | GiveUp why => inl (Stopped why)
  | Backoff delay =>
      match w with
      | StopSignalled => inl (Stopped StopDuringBackoff)
      | WaitCancelled => inl (Unwound CancelledError)
      | DelayElapsed => inr delay
      end
  end.

Fixpoint supervise (channel_name : string) (rounds : list round)
  (rs : retry_state) (n : nat) (ds : list Q) (w : world) : run :=
  match rounds with
  | [] => {| final := rs; attempts := n; delays := ds; exit := StillRunning; after := w |}
  | r :: rest =>
      if stop_set r || negb (self_running r) then
        {| final := rs; attempts := n; delays := ds;
           exit := Stopped LoopConditionFalse; after := w |}
      else
        let '(w', o) := listen_to_chat json_loads channel_name (attempt r) w in
        let finish rs' x :=
          {| final := rs'; attempts := S n; delays := ds; exit := x; after := w' |} in
        let handled '(rs', v) :=
          match after_handler v (wait r) with
          | inl x => finish rs' x
          | inr delay => supervise channel_name rest rs' (S n) (ds ++ [delay]) w'
          end in
        match o with
        | Pending => finish rs StillRunning
        | Returned =>
            finish {| retry_count := 0; connection_retry_count := 0 |}
                   (Stopped SessionReturned)
        | Raised (ConnectionClosed rcvd sent) => handled (on_connection_closed rcvd rs)
        | Raised e =>
            if is_Exception e then handled (on_exception rs)
            else finish rs (Unwound e)
        end
  end.

(** The coroutine whole: the loop from fresh counters, then the epilogue,
    which is reached only when the loop was left. *)
Definition _scrape_channel_with_retry (channel_name : string)
  (rounds : list round) (self : KickChatLogger) (w : world)
  : KickChatLogger * run :=
  let r := supervise channel_name rounds
             {| retry_count := 0; connection_retry_count := 0 |} 0 [] w in
  match exit r with
  | Stopped _ => (supervisor_epilogue channel_name self, r)
  | _ => (self, r)
  end.

End WithDecoder.

(** What an [await asyncio.wait_for(task, timeout=...)] comes back with.
    It returns exactly when the supervisor coroutine ran to its end, which
    includes its epilogue. *)
Inductive await_result : Type :=
| AwaitReturns
| AwaitTimeout
| AwaitRaises (e : py_exn).

Record stop_script := {
  grace_wait : await_result;     (* the wait of 5 seconds *)
  cancel_wait : await_result     (* the wait of 2 seconds after [task.cancel()] *)
}.

Definition set_stop_event (channel_name : string) (self : KickChatLogger)
  : KickChatLogger :=
  {| active_tasks := active_tasks self;
     stop_events :=
       match stop_events self !! channel_name with
       | Some _ => <[channel_name := true]> (stop_events self)
       | None => stop_events self
       end;
     running := running self;
     next_task := next_task self |}.

Definition stop_channel_scraping (channel_name : string) (sc : stop_script)
  (self : KickChatLogger) : KickChatLogger * res bool :=
  match active_tasks self !! channel_name with
  | None => (self, Ok false)
  | Some task =>
      let self1 := set_stop_event channel_name self in
      match grace_wait sc with
      | AwaitReturns => (supervisor_epilogue channel_name self1, Ok true)
      | AwaitRaises e => (self1, Raise e)
      | AwaitTimeout =>
          match cancel_wait sc with
          | AwaitReturns => (supervisor_epilogue channel_name self1, Ok true)
          | AwaitTimeout => (self1, Ok true)
          | AwaitRaises e => (self1, Raise e)
          end
      end
  end.

End Cli.

(* ===================================================================== *)
(** ** Sample inputs                                                      *)
(* ===================================================================== *)

Module Samples.
Import KickApi Listener Cli.

(** Sample texts are written with apostrophes where JSON has double
    quotes. *)
Definition dq (s : string) : string :=
  string_of_list_ascii
    (map (fun a => if (N_of_ascii a =? 39)%N then ascii_of_N 34 else a)
         (list_ascii_of_string s)).

Definition channel_page : string :=
  dq "{'id': 7, 'slug': 'xqc', 'chatroom': {'id': 12345}}".

Definition chat_frame : string :=
  dq "{'event': 'App\\Events\\ChatMessageEvent', 'data': '{\'id\': \'m1\', \'content\': \'hi\'}', 'channel': 'chatrooms.12345.v2'}".

Definition established_frame : string :=
  dq "{'event': 'pusher:connection_established', 'data': '{\'socket_id\': \'1.2\'}'}".

Definition unknown_frame : string :=
  dq "{'event': 'App\\Events\\GiftedSubscriptionsEvent', 'data': '{\'gifter\': \'a\'}'}".

(** [unknown_frame], decoded *)
Definition gift_fields : list (string * json) :=
  [("event", JStr "App\Events\GiftedSubscriptionsEvent");
   ("data", JStr (dq "{'gifter': 'a'}"))].

Definition tick_at (now : Z) (p : ping_outcome) (r : recv_outcome) : tick :=
  {| stop_is_set := false; current_time := now; ping := p; recv := r;
     store := StoreReturns true |}.

Definition stop_tick (now : Z) : tick :=
  {| stop_is_set := true; current_time := now; ping := PongReceived;
     recv := RecvTimeout; store := StoreReturns true |}.

(** a frame that is not JSON, with a chat message behind it *)
Definition garbled_then_chat : list tick :=
  [tick_at 1 PongReceived (RecvText "not json");
   tick_at 2 PongReceived (RecvText chat_frame)].

Definition fresh_loop : loop_state :=
  {| last_ping_time := 0; consecutive_ping_failures := 0 |}.

(** a session that resolves the channel, connects and subscribes at time 0 *)
Definition live_session (ts : list tick) : session :=
  {| lookup := HttpResponse 200 channel_page; start_time := 0;
     connect := Connected; subscribe := Sent; ticks := ts |}.

(** a session whose lookup is answered by [http] *)
Definition lookup_session (http : http_outcome) : session :=
  {| lookup := http; start_time := 0; connect := Connected; subscribe := Sent;
     ticks := [] |}.

Definition abnormal_closure : recv_outcome := RecvClosed None None.

(** one chat message is received and stored, then the connection drops
    without a close frame *)
Definition chat_then_drop : session :=
  live_session [tick_at 1 PongReceived (RecvText chat_frame);
                tick_at 2 PongReceived abnormal_closure].

(** three pings in a row go unanswered *)
Definition three_ping_timeouts : session :=
  live_session [tick_at 1201 PongTimeout RecvTimeout;
                tick_at 2402 PongTimeout RecvTimeout;
                tick_at 3603 PongTimeout RecvTimeout].

Definition turn (s : session) : round :=
  {| stop_set := false; self_running := true; attempt := s; wait := DelayElapsed |}.

Definition empty_logger : KickChatLogger :=
  {| active_tasks := ∅; stop_events := ∅; running := true; next_task := 0 |}.

Definition rs0 : retry_state := {| retry_count := 0; connection_retry_count := 0 |}.

(** a [channels] table with the one row of an active channel *)
Definition xqc_table : gmap (list N) bool := {[pystr_of "xqc" := false]}.

End Samples.

(* ===================================================================== *)
(** ** storage.py: the channel registry of the database                   *)
(* ===================================================================== *)

Module Storage.
Import Sanitize.

Section WithUnicode.
Context `{PyUnicode}.

(** The [channels] table as a map from [name] ([TEXT UNIQUE NOT NULL]) to
    the [paused] column.  Each operation opens its own connection; [io]
    says whether its statements run ([true]) or raise [sqlite3.Error]
    ([false]), which every operation catches and answers with its failure
    value. *)
Definition add_channel (channel_name : pystr) (io table_created : bool)
  (db : gmap (list N) bool) : gmap (list N) bool * bool :=
  let normalized_name := sanitize_channel_name channel_name in
  if negb io then (db, false)
  else
    match db !! normalized_name with
    | Some _ => (db, false)               (* the INSERT violates UNIQUE *)
    | None =>
        if table_created
        then (<[normalized_name := false]> db, true)
        else (db, false)                  (* no commit *)
    end.

Definition channel_exists (channel_name : pystr) (io : bool)
  (db : gmap (list N) bool) : bool :=
  let normalized_name := sanitize_channel_name channel_name in
  if io then bool_decide (is_Some (db !! normalized_name)) else false.

Definition _validate_and_normalize_channel (channel_name : pystr) (io : bool)
  (db : gmap (list N) bool) : option pystr :=
  let normalized_name := sanitize_channel_name channel_name in
  if negb (channel_exists normalized_name io db) then None
  else Some normalized_name.

(** [if not normalized_name]: [None] and the empty string both count *)
Definition not_name (o : option pystr) : bool :=
  match o with
  | None | Some [] => true
  | Some (_ :: _) => false
  end.

(** [UPDATE channels SET paused = ? WHERE name = ?] *)
Definition set_paused (name : pystr) (p : bool) (db : gmap (list N) bool)
  : gmap (list N) bool :=
  match db !! name with
  | Some _ => <[name := p]> db
  | None => db
  end.

Definition pause_channel (channel_name : pystr) (io_exists io_update : bool)
  (db : gmap (list N) bool) : gmap (list N) bool * bool :=
  let normalized_name := _validate_and_normalize_channel channel_name io_exists db in
  if not_name normalized_name then (db, false)
  else
    match normalized_name with
    | Some n => if io_update then (set_paused n true db, true) else (db, false)
    | None => (db, false)
    end.

Definition resume_channel (channel_name : pystr) (io_exists io_update : bool)
  (db : gmap (list N) bool) : gmap (list N) bool * bool :=
  let normalized_name := _validate_and_normalize_channel channel_name io_exists db in
  if not_name normalized_name then (db, false)
  else
    match normalized_name with
    | Some n => if io_update then (set_paused n false db, true) else (db, false)
    | None => (db, false)
    end.

End WithUnicode.

(** [SELECT name FROM channels WHERE paused = 0]; the order of the rows is
    the database's. *)
Definition get_active_channels (io : bool) (db : gmap (list N) bool)
  : list pystr :=
  if io then (map_to_list (filter (fun kv => kv.2 = false) db)).*1 else [].

Definition get_paused_channels (io : bool) (db : gmap (list N) bool)
  : list pystr :=
  if io then (map_to_list (filter (fun kv => kv.2 = true) db)).*1 else [].

Definition get_all_channels (io : bool) (db : gmap (list N) bool)
  : list pystr :=
  if io then (map_to_list db).*1 else [].

End Storage.

(* ===================================================================== *)
(** ** cli.py: the operations around start and stop                       *)
(* ===================================================================== *)

Module CliOps.
Import KickApi Listener Cli.

(** A closure that the supervisor counts on the severe track: the code it
    reads off the exception is 4200 or 1011. *)
Definition severe_closure (o : outcome) : bool :=
  match o with
  | Raised (ConnectionClosed rcvd _) =>
      existsb (Z.eqb (closed_code rcvd)) [4200; 1011]%Z
  | _ => false
  end.

(** The two maps go together and handles are not shared: a channel has a
    task exactly when it has a stop event, every handle in use was handed
    out before, and no two channels hold the same one. *)
Definition registry_wf (self : KickChatLogger) : Prop :=
  (forall c, is_Some (active_tasks self !! c) <-> is_Some (stop_events self !! c))
  /\ (forall c t, active_tasks self !! c = Some t -> t < next_task self)
  /\ (forall c1 c2 t,
        active_tasks self !! c1 = Some t -> active_tasks self !! c2 = Some t ->
        c1 = c2).

(** How many more failures the counters leave room for before a handler
    gives up: up to 10 on the generic track, up to 50 on the severe one. *)
Definition budget_left (rs : retry_state) : nat :=
  Z.to_nat (Z.max 0 (10 - retry_count rs))
  + Z.to_nat (Z.max 0 (50 - connection_retry_count rs)).

(** [load_and_start_active_channels], given what
    [storage.get_active_channels()] answered *)
Definition load_and_start_active_channels (active_channels : list string)
  (self : KickChatLogger) : KickChatLogger :=
  match active_channels with
  | [] => self
  | _ => fold_left (fun s c => (start_channel_scraping c s).1) active_channels self
  end.

Definition set_running (b : bool) (self : KickChatLogger) : KickChatLogger :=
  {| active_tasks := active_tasks self; stop_events := stop_events self;
     running := b; next_task := next_task self |}.

(** The loop of [shutdown] over [keys], the snapshot
    [list(self.active_tasks.keys())]; [scripts] says how each channel's
    task answers its stop.  An exception out of one stop ends the loop. *)
Fixpoint stop_all (keys : list string) (scripts : string -> stop_script)
  (self : KickChatLogger) : KickChatLogger * res unit :=
  match keys with
  | [] => (self, Ok tt)
  | channel_name :: rest =>
      match stop_channel_scraping channel_name (scripts channel_name) self with
      | (self', Raise e) => (self', Raise e)
      | (self', Ok _) => stop_all rest scripts self'
      end
  end.

(** [shutdown].  The map does not record the order in which a Python dict
    lists its keys, so the snapshot is given. *)
Definition shutdown (keys : list string) (scripts : string -> stop_script)
  (self : KickChatLogger) : KickChatLogger * res unit :=
  stop_all keys scripts (set_running false self).

(** [pause_channel], given what [storage.pause_channel] answers *)
Definition pause_channel (channel_name : string) (sc : stop_script)
  (storage_paused : bool) (self : KickChatLogger) : KickChatLogger * res bool :=
  match stop_channel_scraping channel_name sc self with
  | (self', Raise e) => (self', Raise e)
  | (self', Ok _) => (self', Ok storage_paused)
  end.

(** [resume_channel], given what [storage.resume_channel] answers *)
Definition resume_channel (channel_name : string) (storage_resumed : bool)
  (self : KickChatLogger) : KickChatLogger * bool :=
  if negb storage_resumed then (self, false)
  else
    let '(self', started) := start_channel_scraping channel_name self in
    if started then (self', true) else (self', false).

Section WithDecoder.
Variable json_loads : string -> option json.

(** [add_channel], given what [storage.channel_exists] and
    [storage.add_channel] answer and what the lookup request meets *)
Definition add_channel (channel_name : string) (exists_in_storage : bool)
  (http : http_outcome) (storage_added : bool) (self : KickChatLogger)
  : KickChatLogger * res bool :=
  if exists_in_storage then (self, Ok true)
  else
    match get_channel_info json_loads http with
    | Raise e => (self, Raise e)
    | Ok channel_info =>
        if negb (success channel_info) then (self, Ok false)
        else if negb storage_added then (self, Ok false)
        else
          let '(self', started) := start_channel_scraping channel_name self in
          if started then (self', Ok true) else (self', Ok false)
    end.

End WithDecoder.

(** [s.split()]: the maximal runs of characters that are not whitespace;
    [cur] holds the run being read, last character first. *)
Fixpoint split_ws (s : pystr) (cur : pystr) : list pystr :=
  match s with
  | [] => match cur with [] => [] | _ => [rev cur] end
  | c :: r =>
      if is_space c then
        match cur with
        | [] => split_ws r []
        | _ => rev cur :: split_ws r []
        end
      else split_ws r (c :: cur)
  end.

Definition str_split (s : pystr) : list pystr := split_ws s [].

Inductive command_action : Type :=
| NoCommand
| Exit
| AddChannel (channel_name : pystr)
| ListChannels
| PauseChannel (channel_name : pystr)
| ResumeChannel (channel_name : pystr)
| ResumeAll
| ShowStats (channel_name : pystr)
| Help
| UnknownCommand.

(** What [handle_command] does with a line: the operation it calls, or the
    [IndexError] of [parts[0]] on an empty list. *)
Inductive dispatch : Type :=
| Calls (a : command_action)
| RaisesIndexError.

Definition str_eqb (a : pystr) (b : string) : bool :=
  bool_decide (a = pystr_of b).

Section WithUnicode.
Context `{PyUnicode}.

Definition handle_command (command : pystr) : dispatch :=
  match command with
  | [] => Calls NoCommand
  | _ =>
      match str_split command with
      | [] => RaisesIndexError
      | part0 :: args =>
          let cmd := str_lower part0 in
          let len_parts := S (length args) in
          if str_eqb cmd "exit" then Calls Exit
          else if str_eqb cmd "add" && (len_parts =? 2)%nat
          then Calls (AddChannel (nth 0 args []))
          else if str_eqb cmd "list" then Calls ListChannels
          else if str_eqb cmd "pause" && (len_parts =? 2)%nat
          then Calls (PauseChannel (nth 0 args []))
          else if str_eqb cmd "resume" && (len_parts =? 2)%nat
          then Calls (ResumeChannel (nth 0 args []))
          else if str_eqb cmd "resume" && (len_parts =? 1)%nat
          then Calls ResumeAll
          else if str_eqb cmd "stats" && (len_parts =? 2)%nat
          then Calls (ShowStats (nth 0 args []))
          else if str_eqb cmd "help" then Calls Help
          else Calls UnknownCommand
      end
  end.

End WithUnicode.
End CliOps.

(* ===================================================================== *)
(** * Theorems                                                            *)
(* ===================================================================== *)

Ltac n_bool :=
repeat (rewrite ?andb_true_iff, ?orb_true_iff, ?andb_false_iff,
        ?orb_false_iff, ?negb_true_iff, ?negb_false_iff,
        ?N.leb_le, ?N.leb_gt, ?N.ltb_lt, ?N.ltb_ge,
        ?N.eqb_eq, ?N.eqb_neq in * ).

Module SanitizeFacts.
Import Sanitize.

Lemma key_char_in_class c : key_char c = true -> in_class c = true.
Proof.
  unfold key_char, in_class. intros Hk.
  repeat (apply orb_true_iff in Hk; destruct Hk as [Hk|Hk]);
    rewrite Hk; rewrite ?orb_true_r; reflexivity.
Qed.

Lemma key_char_not_space c : key_char c = true -> is_space c = false.
Proof.
  unfold key_char, is_space, is_ascii_lower, is_ascii_digit, underscore.
  intros Hk. n_bool. lia.
Qed.

Lemma key_char_not_upper c : key_char c = true -> is_ascii_upper c = false.
Proof.
  unfold key_char, is_ascii_upper, is_ascii_lower, is_ascii_digit, underscore.
  intros Hk. n_bool. lia.
Qed.

Lemma key_char_ascii c : key_char c = true -> is_ascii c = true.
Proof.
  unfold key_char, is_ascii, is_ascii_lower, is_ascii_digit, underscore.
  intros Hk. n_bool. lia.
Qed.

Lemma in_class_lower_is_key c :
  in_class c = true -> is_ascii_upper c = false -> key_char c = true.
Proof.
  unfold in_class, key_char. intros Hc Hu. rewrite Hu in Hc.
  rewrite orb_false_r in Hc. exact Hc.
Qed.

(** What [lstrip] drops is a run of whitespace in front. *)
Lemma lstrip_split s :
  exists pre, s = pre ++ lstrip s /\ forallb is_space pre = true.
Proof.
  induction s as [|c r IH]; simpl.
  - exists []. split; reflexivity.
  - destruct (is_space c) eqn:E.
    + destruct IH as (pre & Hr & Hp). exists (c :: pre). simpl.
      rewrite E, Hp. split; [f_equal; exact Hr | reflexivity].
    + exists []. split; reflexivity.
Qed.

Lemma rstrip_split s :
  exists post, s = rstrip s ++ post /\ forallb is_space post = true.
Proof.
  unfold rstrip. destruct (lstrip_split (rev s)) as (pre & Hs & Hp).
  exists (rev pre). split.
  - rewrite <- rev_app_distr, <- Hs, rev_involutive. reflexivity.
  - rewrite forallb_forall in *. intros x Hx. apply Hp.
    apply in_rev. exact Hx.
Qed.

Lemma str_strip_split s :
  exists pre post,
    s = pre ++ str_strip s ++ post
    /\ forallb is_space pre = true /\ forallb is_space post = true.
Proof.
  destruct (lstrip_split s) as (pre & Hs & Hp).
  destruct (rstrip_split (lstrip s)) as (post & Hl & Hq).
  exists pre, post. unfold str_strip. rewrite <- Hl. auto.
Qed.

Lemma lstrip_head s c r : lstrip s = c :: r -> is_space c = false.
Proof.
  induction s as [|d t IH]; simpl; [discriminate|].
  destruct (is_space d) eqn:E; [exact IH|].
  intros [= <- _]. exact E.
Qed.

Lemma lstrip_lstrip s : lstrip (lstrip s) = lstrip s.
Proof.
  destruct (lstrip s) as [|c r] eqn:E; [reflexivity|].
  simpl. rewrite (lstrip_head _ _ _ E). reflexivity.
Qed.

Lemma lstrip_app_solid l c m :
  is_space c = false -> lstrip (l ++ c :: m) = lstrip l ++ c :: m.
Proof.
  intros Hc. induction l as [|d t IH]; simpl.
  - rewrite Hc. reflexivity.
  - destruct (is_space d); [exact IH | reflexivity].
Qed.

Lemma rstrip_cons_solid c r :
  is_space c = false -> rstrip (c :: r) = c :: rstrip r.
Proof.
  intros Hc. unfold rstrip. simpl.
  rewrite (lstrip_app_solid _ _ _ Hc), rev_app_distr. reflexivity.
Qed.

Lemma lstrip_strip s : lstrip (str_strip s) = str_strip s.
Proof.
  unfold str_strip. destruct (lstrip s) as [|c r] eqn:E; [reflexivity|].
  pose proof (lstrip_head _ _ _ E) as Hc.
  rewrite (rstrip_cons_solid _ _ Hc). simpl. rewrite Hc. reflexivity.
Qed.

Lemma rstrip_strip s : rstrip (str_strip s) = str_strip s.
Proof.
  unfold str_strip, rstrip. rewrite rev_involutive, lstrip_lstrip.
  reflexivity.
Qed.

Lemma in_str_strip c s : In c (str_strip s) -> In c s.
Proof.
  intros Hc. destruct (str_strip_split s) as (pre & post & Hs & _).
  rewrite Hs. apply in_or_app. right. apply in_or_app. left. exact Hc.
Qed.

Lemma lstrip_keys s : forallb key_char s = true -> lstrip s = s.
Proof.
  destruct s as [|c r]; simpl; [reflexivity|].
  intros Hk. apply andb_true_iff in Hk. destruct Hk as [Hc _].
  rewrite (key_char_not_space _ Hc). reflexivity.
Qed.

Lemma str_strip_keys s : forallb key_char s = true -> str_strip s = s.
Proof.
  intros Hk. unfold str_strip, rstrip. rewrite (lstrip_keys _ Hk).
  rewrite lstrip_keys; [apply rev_involutive|].
  rewrite forallb_forall in *. intros x Hx. apply Hk. apply in_rev. exact Hx.
Qed.

Lemma re_sub_invalid_keys s : forallb key_char s = true -> re_sub_invalid s = s.
Proof.
  unfold re_sub_invalid. induction s as [|c r IH]; simpl; [reflexivity|].
  intros Hk. apply andb_true_iff in Hk. destruct Hk as [Hc Hr].
  rewrite (key_char_in_class _ Hc), (IH Hr). reflexivity.
Qed.

Lemma map_ascii_lower_keys s : forallb key_char s = true -> map ascii_lower s = s.
Proof.
  induction s as [|c r IH]; simpl; [reflexivity|].
  intros Hk. apply andb_true_iff in Hk. destruct Hk as [Hc Hr].
  unfold ascii_lower at 1. rewrite (key_char_not_upper _ Hc), (IH Hr).
  reflexivity.
Qed.

Section WithUnicode.
Context `{PyUnicode}.

Lemma str_lower_keys s : forallb key_char s = true -> str_lower s = s.
Proof.
  intros Hk. rewrite str_lower_ascii.
  - apply map_ascii_lower_keys. exact Hk.
  - rewrite forallb_forall in *. intros x Hx. apply key_char_ascii. auto.
Qed.

Lemma sanitize_channel_name_keys name :
  forallb key_char (sanitize_channel_name name) = true.
Proof.
  unfold sanitize_channel_name, re_sub_invalid.
  apply forallb_forall. intros x Hx. apply in_map_iff in Hx.
  destruct Hx as (c & <- & Hc).
  destruct (in_class c) eqn:E; [|reflexivity].
  apply in_class_lower_is_key; [exact E|].
  apply (str_lower_no_upper name). apply in_str_strip. exact Hc.
Qed.

Lemma table_prefix_keys : forallb key_char CHANNEL_TABLE_PREFIX = true.
Proof. reflexivity. Qed.

(** C9 (as amended): the sanitizer lowercases the name, drops the
    whitespace at both ends, and maps every remaining character outside
    [a-zA-Z0-9_] to an underscore, one for one; "Foo_Bar" becomes
    "foo_bar"; and the table name is the fixed prefix followed by the
    sanitized name, every character of which is in [a-z0-9_]. *)
Theorem sanitize_channel_name_amended :
  sanitize_channel_name (pystr_of "Foo_Bar") = pystr_of "foo_bar"
  /\ (forall name, exists pre mid post,
         str_lower name = pre ++ mid ++ post
         /\ forallb is_space pre = true /\ forallb is_space post = true
         /\ lstrip mid = mid /\ rstrip mid = mid
         /\ sanitize_channel_name name = spec_sanitize_chars mid)
  /\ (forall name,
         get_channel_table_name name
           = pystr_of "kickchat_" ++ sanitize_channel_name name
         /\ forallb key_char (sanitize_channel_name name) = true
         /\ forallb key_char (get_channel_table_name name) = true).
Proof.
  split; [|split].
  - unfold sanitize_channel_name. rewrite str_lower_ascii by reflexivity.
    reflexivity.
  - intros name.
    destruct (str_strip_split (str_lower name)) as (pre & post & Hs & Hp & Hq).
    exists pre, (str_strip (str_lower name)), post.
    repeat split; try assumption.
    + apply lstrip_strip.
    + apply rstrip_strip.
  - intros name. split; [reflexivity|]. split.
    + apply sanitize_channel_name_keys.
    + unfold get_channel_table_name. rewrite forallb_app.
      rewrite table_prefix_keys, sanitize_channel_name_keys. reflexivity.
Qed.

(** C10: [sanitize_channel_name] is idempotent: for every string, sanitizing
    the sanitized name gives the sanitized name again, so a name read back
    from storage and sanitized once more does not change. *)
Theorem sanitize_channel_name_idempotent name :
  sanitize_channel_name (sanitize_channel_name name)
  = sanitize_channel_name name.
Proof.
  pose proof (sanitize_channel_name_keys name) as Hk.
  unfold sanitize_channel_name at 1.
  rewrite (str_lower_keys _ Hk), (str_strip_keys _ Hk).
  apply re_sub_invalid_keys. exact Hk.
Qed.

End WithUnicode.

(** C9 (as stated) fails on a name with whitespace at an end: the code
    removes a leading blank, where lowercasing and mapping alone would turn
    it into an underscore. *)
Lemma sanitize_channel_name_strips :
  @sanitize_channel_name AsciiCaseTable (pystr_of " Foo") = pystr_of "foo"
  /\ @spec_sanitize AsciiCaseTable (pystr_of " Foo") = pystr_of "_foo"
  /\ ~ (forall (U : PyUnicode) (name : pystr),
          @sanitize_channel_name U name = @spec_sanitize U name).
Proof.
  split; [reflexivity|]. split; [reflexivity|].
  intros Hall. specialize (Hall AsciiCaseTable (pystr_of " Foo")).
  discriminate Hall.
Qed.

End SanitizeFacts.

(* ===================================================================== *)
(** ** The registry: start and stop                                       *)
(* ===================================================================== *)

Module RegistryFacts.
Import Listener Cli Samples.

Lemma start_when_supervised channel_name self task :
  active_tasks self !! channel_name = Some task ->
  start_channel_scraping channel_name self = (self, true).
Proof. intros Ht. unfold start_channel_scraping. rewrite Ht. reflexivity. Qed.

Lemma start_registers channel_name self :
  is_Some (active_tasks (start_channel_scraping channel_name self).1 !! channel_name).
Proof.
  unfold start_channel_scraping.
  destruct (active_tasks self !! channel_name) as [task|] eqn:Ht; simpl.
  - rewrite Ht. eauto.
  - rewrite lookup_insert_eq. eauto.
Qed.

(** C5: two calls of [start_channel_scraping] for the same channel, one
    right after the other, both return [True]; the second changes nothing,
    so the task and the event registered by the first are still the ones
    in the registry, and the registry holds one entry for the channel: a
    call on a channel that was not supervised adds exactly one task and
    one unset event, a call on a supervised channel adds nothing. *)
Theorem start_channel_scraping_twice (channel_name : string) (self : KickChatLogger) :
  let first := start_channel_scraping channel_name self in
  let second := start_channel_scraping channel_name first.1 in
  first.2 = true /\ second.2 = true /\ second.1 = first.1
  /\ is_Some (active_tasks first.1 !! channel_name)
  /\ match active_tasks self !! channel_name with
     | Some task => first.1 = self
     | None =>
         active_tasks first.1 = <[channel_name := next_task self]> (active_tasks self)
         /\ stop_events first.1 = <[channel_name := false]> (stop_events self)
         /\ size (active_tasks first.1) = S (size (active_tasks self))
     end.
Proof.
  intros first second.
  pose proof (start_registers channel_name self) as [task Htask].
  fold first in Htask.
  assert (Hsecond : second = (first.1, true))
    by (apply (start_when_supervised _ _ task); exact Htask).
  rewrite Hsecond. subst first second.
  unfold start_channel_scraping in *.
  destruct (active_tasks self !! channel_name) as [t|] eqn:Ht; simpl in *.
  - rewrite Ht. repeat split; eauto.
  - repeat split; eauto. apply map_size_insert_None. exact Ht.
Qed.

Lemma stop_not_supervised channel_name sc self :
  active_tasks self !! channel_name = None ->
  stop_channel_scraping channel_name sc self = (self, Ok false).
Proof. intros Ht. unfold stop_channel_scraping. rewrite Ht. reflexivity. Qed.

(** When the supervisor leaves its loop within the grace period, its
    epilogue has taken the entry out by the time [stop] returns. *)
Lemma stop_clean_exit_removes channel_name sc self :
  is_Some (active_tasks self !! channel_name) ->
  grace_wait sc = AwaitReturns ->
  let self' := (stop_channel_scraping channel_name sc self).1 in
  active_tasks self' !! channel_name = None
  /\ stop_events self' !! channel_name = None.
Proof.
  intros [task Ht] Hg. unfold stop_channel_scraping. rewrite Ht, Hg. simpl.
  split; apply lookup_delete_eq.
Qed.

(** When the grace period runs out and the task does not reach its end,
    nothing removes the entry. *)
Lemma stop_forced_keeps channel_name sc self :
  grace_wait sc = AwaitTimeout ->
  cancel_wait sc <> AwaitReturns ->
  active_tasks (stop_channel_scraping channel_name sc self).1 = active_tasks self.
Proof.
  intros Hg Hc. unfold stop_channel_scraping.
  destruct (active_tasks self !! channel_name); [|reflexivity].
  rewrite Hg. destruct (cancel_wait sc); try reflexivity. congruence.
Qed.

(** C3 on the code: a channel is started and stopped.  When the supervisor
    exits within the grace period the entry is gone.  When the grace period
    runs out and the task is cancelled (the second wait raises
    [CancelledError], or times out in its turn), the task and the event,
    now set, are still registered after [stop]; a later [start] finds the
    stale entry and creates no task. *)
Theorem stop_channel_scraping_forced_keeps_entry :
  let started := (start_channel_scraping "xqc" empty_logger).1 in
  let clean := {| grace_wait := AwaitReturns; cancel_wait := AwaitReturns |} in
  let forced := {| grace_wait := AwaitTimeout; cancel_wait := AwaitRaises CancelledError |} in
  let stuck := {| grace_wait := AwaitTimeout; cancel_wait := AwaitTimeout |} in
  let after_clean := stop_channel_scraping "xqc" clean started in
  let after_forced := stop_channel_scraping "xqc" forced started in
  let after_stuck := stop_channel_scraping "xqc" stuck started in
  (active_tasks after_clean.1 !! "xqc" = None
   /\ stop_events after_clean.1 !! "xqc" = None
   /\ after_clean.2 = Ok true)
  /\ (active_tasks after_forced.1 !! "xqc" = Some 0
      /\ stop_events after_forced.1 !! "xqc" = Some true
      /\ after_forced.2 = Raise CancelledError)
  /\ (active_tasks after_stuck.1 !! "xqc" = Some 0
      /\ stop_events after_stuck.1 !! "xqc" = Some true
      /\ after_stuck.2 = Ok true)
  /\ start_channel_scraping "xqc" after_stuck.1 = (after_stuck.1, true).
Proof. vm_compute. repeat split; reflexivity. Qed.

End RegistryFacts.

(* ===================================================================== *)
(** ** The session loop and the classifier                                *)
(* ===================================================================== *)

Module ListenerFacts.
Import Config KickApi Listener Cli Samples JsonRef.

Lemma dict_get_found fields k v default :
  dict_lookup k fields = Some v -> dict_get fields k default = v.
Proof. intros Hk. unfold dict_get. rewrite Hk. reflexivity. Qed.

Lemma ignored_not_handled name :
  existsb (String.eqb name) IGNORED_EVENTS = true ->
  existsb (String.eqb name) HANDLED_EVENTS = false.
Proof.
  intros Hi. apply existsb_exists in Hi. destruct Hi as (x & Hx & Heq).
  apply String.eqb_eq in Heq. subst x.
  simpl in Hx. repeat (destruct Hx as [<-|Hx]; [reflexivity|]). destruct Hx.
Qed.

Section WithDecoder.
Variable json_loads : string -> option json.

Lemma parse_event_named fields name :
  dict_lookup "event" fields = Some (JStr name) ->
  match parse_event json_loads fields with
  | Ok ev => event ev = name
  | Raise e => e = JSONDecodeError
  end.
Proof.
  intros He. unfold parse_event. rewrite (dict_get_found _ _ _ _ He).
  destruct (dict_get fields "data" (JStr "{}")); try reflexivity.
  destruct (json_loads s); reflexivity.
Qed.

(** C6 (as amended): every received frame that decodes falls under exactly
    one case.  A frame that is not an object, or whose event is a list or
    an object, raises before it is classified, with nothing logged and
    nothing stored.  Otherwise it is classified by its event name: an
    ignored name leaves the world as it was; a handled name writes no line
    and is parsed into the event of that name whose payload is the [data]
    field, decoded when it is a string (the default being the empty
    object's text), and this event is passed to [store_event], whose
    return or exception ends the pass, unless the data string does not
    decode, in which case the pass raises and nothing is stored; any other
    name, a missing or non-string one included, appends the message to the
    unhandled-messages file exactly once and stores nothing.  No name is
    both ignored and handled. *)
Theorem classifier_outcomes channel t raw message w :
  recv t = RecvText raw ->
  json_loads raw = Some message ->
  let result := receive json_loads channel t w in
  match message with
  | JObj fields =>
      match dict_get fields "event" JNull with
      | JArr _ | JObj _ => result = (w, Raise TypeError)
      | JStr name =>
          let ignored := existsb (String.eqb name) IGNORED_EVENTS in
          let handled := existsb (String.eqb name) HANDLED_EVENTS in
          ignored && handled = false
          /\ (if ignored then result = (w, Ok tt)
              else if handled then
                let decoded :=
                  match dict_lookup "data" fields with
                  | None => json_loads "{}"
                  | Some (JStr data_str) => json_loads data_str
                  | Some parsed_data => Some parsed_data
                  end in
                match decoded with
                | Some payload =>
                    let ev := {| event := name; event_data := payload |} in
                    result
                    = ({| connections := connections w;
                          sent_frames := sent_frames w;
                          unhandled_log := unhandled_log w;
                          store_calls := store_calls w ++ [(channel, ev)] |},
                       match store t with
                       | StoreReturns _ => Ok tt
                       | StoreRaises e => Raise e
                       end)
                | None => result = (w, Raise JSONDecodeError)
                end
              else
                result
                = ({| connections := connections w;
                      sent_frames := sent_frames w;
                      unhandled_log := unhandled_log w ++ [JObj fields];
                      store_calls := store_calls w |}, Ok tt))
      | _ =>
          result
          = ({| connections := connections w;
                sent_frames := sent_frames w;
                unhandled_log := unhandled_log w ++ [JObj fields];
                store_calls := store_calls w |}, Ok tt)
      end
  | _ => result = (w, Raise AttributeError)
  end.
Proof.
  intros Hr Hd result. subst result. unfold receive. rewrite Hr, Hd.
  unfold handle_websocket_message.
  destruct message; try reflexivity.
  destruct (dict_get fields "event" JNull) as [| | | |name| |] eqn:Ee;
    try reflexivity.
  cbn [py_in]. cbv zeta.
  split.
  - destruct (existsb _ IGNORED_EVENTS) eqn:Hi; [|reflexivity].
    rewrite (ignored_not_handled _ Hi). reflexivity.
  - destruct (existsb (String.eqb name) IGNORED_EVENTS); [reflexivity|].
    destruct (existsb (String.eqb name) HANDLED_EVENTS); [|reflexivity].
    unfold parse_event. rewrite Ee. unfold dict_get.
    destruct (dict_lookup "data" fields) as [v|].
    + destruct v; try (destruct (store t); reflexivity).
      destruct (json_loads s); [destruct (store t)|]; reflexivity.
    + destruct (json_loads "{}"); [destruct (store t)|]; reflexivity.
Qed.

(** Whether an attempt succeeds does not depend on what earlier attempts
    wrote. *)
Lemma receive_outcome_any_world channel t w1 w2 :
  (receive json_loads channel t w1).2 = (receive json_loads channel t w2).2.
Proof.
  unfold receive. destruct (recv t); try reflexivity.
  destruct (json_loads raw) as [m|]; [|reflexivity].
  unfold handle_websocket_message.
  destruct m; try reflexivity.
  destruct (py_in _ IGNORED_EVENTS) as [[|]|]; try reflexivity.
  destruct (py_in _ HANDLED_EVENTS) as [[|]|]; try reflexivity.
  destruct (parse_event json_loads fields); [destruct (store t)|]; reflexivity.
Qed.

Lemma receive_loop_outcome_any_world channel ts st w1 w2 :
  (receive_loop json_loads channel ts st w1).2
  = (receive_loop json_loads channel ts st w2).2.
Proof.
  revert st w1 w2. induction ts as [|t rest IH]; intros st w1 w2; simpl.
  - reflexivity.
  - destruct (stop_is_set t); [reflexivity|].
    destruct (keepalive t st) as [st'|e]; [|reflexivity].
    pose proof (receive_outcome_any_world channel t w1 w2) as Hr.
    destruct (receive json_loads channel t w1) as [w1' [u1|e1]],
             (receive json_loads channel t w2) as [w2' [u2|e2]];
      simpl in Hr; try discriminate.
    + apply IH.
    + simpl. congruence.
Qed.

Lemma listen_outcome_any_world channel s w1 w2 :
  (listen_to_chat json_loads channel s w1).2
  = (listen_to_chat json_loads channel s w2).2.
Proof.
  unfold listen_to_chat.
  destruct (get_chatroom_id json_loads (lookup s)) as [cid|e]; [|reflexivity].
  destruct (negb (truthy cid)); [reflexivity|].
  destruct (connect s); [|reflexivity].
  destruct (subscribe s); [|reflexivity].
  apply receive_loop_outcome_any_world.
Qed.

(** A lookup that is answered with a status other than 200, or not
    answered in time, makes [listen_to_chat] return, not raise, before any
    connection is opened. *)
Lemma failed_lookup_returns channel s w :
  match lookup s with
  | HttpResponse status body => status <> 200%Z
  | HttpTimeout => True
  | HttpError => False
  end ->
  listen_to_chat json_loads channel s w = (w, Returned).
Proof.
  unfold listen_to_chat, get_chatroom_id, get_channel_info,
    _handle_channel_response.
  destruct (lookup s) as [status body| |]; intros Hl; try reflexivity;
    [|destruct Hl].
  destruct (Z.eqb_spec status 200) as [->|Hne]; [congruence|].
  destruct (status =? 403)%Z; [reflexivity|].
  destruct (status =? 404)%Z; reflexivity.
Qed.

(** A 200 whose body does not decode makes [listen_to_chat] raise before
    any connection is opened. *)
Lemma undecodable_lookup_raises channel s body w :
  lookup s = HttpResponse 200 body -> json_loads body = None ->
  listen_to_chat json_loads channel s w = (w, Raised JSONDecodeError).
Proof.
  intros Hl Hd.
  unfold listen_to_chat, get_chatroom_id, get_channel_info,
    _handle_channel_response.
  rewrite Hl. cbn. rewrite Hd. reflexivity.
Qed.

Lemma keepalive_unanswered t st :
  ping t = PongTimeout ->
  (current_time t - last_ping_time st > 1200)%Z ->
  keepalive t st =
    if (consecutive_ping_failures st + 1 >=? 3)%Z
    then Raise ping_timeout_closure
    else Ok {| last_ping_time := current_time t;
               consecutive_ping_failures := consecutive_ping_failures st + 1 |}.
Proof.
  intros Hp Hd. unfold keepalive, PING_INTERVAL_MINUTES.
  replace (current_time t - last_ping_time st >? 60 * 20)%Z with true
    by (symmetry; apply Z.gtb_lt; lia).
  rewrite Hp. reflexivity.
Qed.

Lemma receive_loop_quiet channel t rest st st' w :
  stop_is_set t = false -> recv t = RecvTimeout -> keepalive t st = Ok st' ->
  receive_loop json_loads channel (t :: rest) st w
  = receive_loop json_loads channel rest st' w.
Proof.
  intros Hs Hr Hk. cbn [receive_loop]. rewrite Hs, Hk.
  unfold receive. rewrite Hr. reflexivity.
Qed.

(** Three pings in a row that are due and go unanswered end the loop with
    the closure the code builds: code 1011 in the frame marked as sent, no
    frame received. *)
Lemma three_ping_timeouts_close channel t1 t2 t3 rest st w :
  consecutive_ping_failures st = 0%Z ->
  (forall t, In t [t1; t2; t3] ->
     stop_is_set t = false /\ ping t = PongTimeout /\ recv t = RecvTimeout) ->
  (current_time t1 - last_ping_time st > 1200)%Z ->
  (current_time t2 - current_time t1 > 1200)%Z ->
  (current_time t3 - current_time t2 > 1200)%Z ->
  receive_loop json_loads channel (t1 :: t2 :: t3 :: rest) st w
  = (w, Raised (ConnectionClosed None
                  (Some {| close_code := 1011; close_reason := "Ping timeout" |}))).
Proof.
  intros H0 Ht H1 H2 H3.
  destruct (Ht t1) as (S1 & P1 & R1); [simpl; auto|].
  destruct (Ht t2) as (S2 & P2 & R2); [simpl; auto|].
  destruct (Ht t3) as (S3 & P3 & R3); [simpl; auto|].
  rewrite (receive_loop_quiet channel t1 _ st
             {| last_ping_time := current_time t1; consecutive_ping_failures := 1 |});
    try assumption.
  2: { rewrite (keepalive_unanswered _ _ P1 H1), H0. reflexivity. }
  rewrite (receive_loop_quiet channel t2 _ _
             {| last_ping_time := current_time t2; consecutive_ping_failures := 2 |});
    try assumption.
  2: { rewrite (keepalive_unanswered _ _ P2) by (simpl; lia). reflexivity. }
  cbn [receive_loop]. rewrite S3.
  rewrite (keepalive_unanswered _ _ P3) by (simpl; lia). reflexivity.
Qed.

End WithDecoder.
End ListenerFacts.

(* ===================================================================== *)
(** ** The supervisor                                                     *)
(* ===================================================================== *)

Module SupervisorFacts.
Import Config KickApi Listener Cli Samples JsonRef ListenerFacts.

(** Neither handler ever lowers a counter, and each raises at least one. *)
Lemma handlers_never_reset rcvd rs :
  let closed := (on_connection_closed rcvd rs).1 in
  let other := (on_exception rs).1 in
  (retry_count rs <= retry_count closed
   /\ connection_retry_count closed = connection_retry_count rs + 1)%Z
  /\ (retry_count other = retry_count rs + 1
      /\ connection_retry_count other = connection_retry_count rs)%Z.
Proof.
  unfold on_connection_closed, on_exception.
  destruct (existsb _ _);
    [destruct (_ >? max_connection_retries)%Z | destruct (_ >? max_retries)%Z at 1];
    destruct (_ >? max_retries)%Z; simpl; lia.
Qed.

Section WithDecoder.
Variable json_loads : string -> option json.

(** One turn of the loop on a failure of the generic kind: the retry count
    goes up by one, the connection count does not go down, and the
    supervisor gives up above ten or waits out the doubling delay. *)
Lemma supervise_generic_failure channel r rest rs n ds w :
  stop_set r = false -> self_running r = true ->
  generic_failure (listen_to_chat json_loads channel (attempt r) w).2 = true ->
  exists crc,
    (connection_retry_count rs <= crc)%Z /\
    let w' := (listen_to_chat json_loads channel (attempt r) w).1 in
    let rs' := {| retry_count := retry_count rs + 1;
                  connection_retry_count := crc |} in
    supervise json_loads channel (r :: rest) rs n ds w =
      if (retry_count rs + 1 >? 10)%Z then
        {| final := rs'; attempts := S n; delays := ds;
           exit := Stopped MaxRetriesExceeded; after := w' |}
      else
        match wait r with
        | DelayElapsed =>
            supervise json_loads channel rest rs' (S n)
              (ds ++ [inject_Z (2 * 2 ^ (retry_count rs + 1 - 1))]) w'
        | StopSignalled =>
            {| final := rs'; attempts := S n; delays := ds;
               exit := Stopped StopDuringBackoff; after := w' |}
        | WaitCancelled =>
            {| final := rs'; attempts := S n; delays := ds;
               exit := Unwound CancelledError; after := w' |}
        end.
Proof.
  intros Hs Hr Hg. cbn [supervise]. rewrite Hs, Hr. simpl orb. cbv iota.
  destruct (listen_to_chat json_loads channel (attempt r) w) as [w' o].
  unfold generic_failure in Hg. cbn [snd fst] in *.
  destruct o as [|e|]; try discriminate.
  destruct e; try discriminate;
    try (exists (connection_retry_count rs); split; [lia|];
         unfold on_exception, after_handler, max_retries, base_delay;
         cbn [is_Exception]; cbv zeta;
         destruct (retry_count rs + 1 >? 10)%Z; [reflexivity|];
         destruct (wait r); reflexivity).
  exists (connection_retry_count rs + 1)%Z. split; [lia|].
  unfold on_connection_closed, after_handler, max_retries, base_delay.
  cbv zeta. apply negb_true_iff in Hg. rewrite Hg.
  destruct (retry_count rs + 1 >? 10)%Z; [reflexivity|].
  destruct (wait r); reflexivity.
Qed.

Lemma supervise_loop_test_fails channel r rest rs n ds w :
  stop_set r || negb (self_running r) = true ->
  supervise json_loads channel (r :: rest) rs n ds w
  = {| final := rs; attempts := n; delays := ds;
       exit := Stopped LoopConditionFalse; after := w |}.
Proof. intros Hc. cbn [supervise]. rewrite Hc. reflexivity. Qed.

(** A session that returns ends the supervision, whatever the counters
    were: they are set to zero and the loop is left. *)
Lemma supervise_session_returned channel r rest rs n ds w :
  stop_set r = false -> self_running r = true ->
  (listen_to_chat json_loads channel (attempt r) w).2 = Returned ->
  supervise json_loads channel (r :: rest) rs n ds w
  = {| final := {| retry_count := 0; connection_retry_count := 0 |};
       attempts := S n; delays := ds; exit := Stopped SessionReturned;
       after := (listen_to_chat json_loads channel (attempt r) w).1 |}.
Proof.
  intros Hs Hr Ho. cbn [supervise]. rewrite Hs, Hr. simpl orb. cbv iota.
  destruct (listen_to_chat json_loads channel (attempt r) w) as [w' o].
  cbn [snd fst] in *. subst o. reflexivity.
Qed.

(** Within one lifetime the counters never go down, unless the run ends
    on a returned session, which is the one place that resets them. *)
Lemma supervise_counters_monotone channel rounds : forall rs n ds w,
  let out := supervise json_loads channel rounds rs n ds w in
  exit out <> Stopped SessionReturned ->
  (retry_count rs <= retry_count (final out)
   /\ connection_retry_count rs <= connection_retry_count (final out))%Z.
Proof.
  induction rounds as [|r rest IH]; intros rs n ds w; cbv zeta.
  - simpl. lia.
  - cbn [supervise].
    destruct (stop_set r || negb (self_running r)); [simpl; lia|].
    destruct (listen_to_chat json_loads channel (attempt r) w) as [w' o].
    assert (Hstep : forall rs' v,
              (retry_count rs <= retry_count rs'
               /\ connection_retry_count rs <= connection_retry_count rs')%Z ->
              let out :=
                match after_handler v (wait r) with
                | inl x => {| final := rs'; attempts := S n; delays := ds;
                              exit := x; after := w' |}
                | inr delay =>
                    supervise json_loads channel rest rs' (S n) (ds ++ [delay]) w'
                end in
              exit out <> Stopped SessionReturned ->
              (retry_count rs <= retry_count (final out)
               /\ connection_retry_count rs <= connection_retry_count (final out))%Z).
    { intros rs' v Hle. cbv zeta.
      destruct (after_handler v (wait r)) as [x|delay]; [simpl; lia|].
      intros Hx. specialize (IH rs' (S n) (ds ++ [delay]) w' Hx). lia. }
    destruct o as [|e|]; [simpl; congruence | | simpl; lia].
    pose proof (handlers_never_reset None rs) as Hh. cbv zeta in Hh.
    destruct e;
      try (cbn [is_Exception]; cbv iota;
           destruct (on_exception rs) as [rs' v] eqn:E;
           apply Hstep; simpl in Hh; lia).
    + pose proof (handlers_never_reset rcvd rs) as Hc. cbv zeta in Hc.
      destruct (on_connection_closed rcvd rs) as [rs' v] eqn:E.
      apply Hstep. simpl in Hc. lia.
    + simpl. lia.
Qed.

Lemma undisturbed_inv r :
  undisturbed r = true ->
  stop_set r = false /\ self_running r = true /\ wait r = DelayElapsed.
Proof.
  unfold undisturbed. intros Hu.
  apply andb_true_iff in Hu. destruct Hu as [Hu Hw].
  apply andb_true_iff in Hu. destruct Hu as [Hs Hr].
  apply negb_true_iff in Hs. destruct (wait r); try discriminate. auto.
Qed.

Lemma budget_runs_out channel k : forall rounds rs n ds w,
  (retry_count rs + Z.of_nat (S k) = 11)%Z ->
  (S k <= length rounds)%nat ->
  Forall (fun r =>
            generic_failure
              (listen_to_chat json_loads channel (attempt r) world0).2 = true)
         (firstn (S k) rounds) ->
  let out := supervise json_loads channel rounds rs n ds w in
  exit out <> StillRunning
  /\ (attempts out <= n + S k)%nat
  /\ (forallb undisturbed (firstn (S k) rounds) = true ->
      exit out = Stopped MaxRetriesExceeded
      /\ attempts out = (n + S k)%nat
      /\ retry_count (final out) = 11%Z).
Proof.
  induction k as [|k IH]; intros rounds rs n ds w Hrc Hlen Hall;
    (destruct rounds as [|r rest]; [simpl in Hlen; lia|]);
    rewrite firstn_cons in *; apply Forall_cons_iff in Hall;
    destruct Hall as [Hr Hrest];
    rewrite (listen_outcome_any_world json_loads channel (attempt r) world0 w) in Hr;
    cbv zeta; cbn [forallb];
    (destruct (stop_set r || negb (self_running r)) eqn:Hc;
     [ rewrite (supervise_loop_test_fails _ _ _ _ _ _ _ Hc); cbn [exit attempts final];
       split; [discriminate|]; split; [lia|];
       intros Hu; apply andb_true_iff in Hu; destruct Hu as [Hu _];
       apply undisturbed_inv in Hu; destruct Hu as (Hs & Hrun & _);
       rewrite Hs, Hrun in Hc; discriminate
     | apply orb_false_iff in Hc; destruct Hc as [Hs Hrun];
       apply negb_false_iff in Hrun ]);
    destruct (supervise_generic_failure channel r rest rs n ds w Hs Hrun Hr)
      as (crc & _ & Heq); cbv zeta in Heq; rewrite Heq; clear Heq.
  - replace (retry_count rs + 1 >? 10)%Z with true
      by (symmetry; apply Z.gtb_lt; lia).
    cbn [exit attempts final retry_count].
    repeat split; try discriminate; lia.
  - replace (retry_count rs + 1 >? 10)%Z with false
      by (symmetry; rewrite Z.gtb_ltb; apply Z.ltb_ge; lia).
    destruct (wait r) eqn:Hw.
    + cbn [exit attempts final retry_count].
      split; [discriminate|]. split; [lia|].
      intros Hu. apply andb_true_iff in Hu. destruct Hu as [Hu _].
      apply undisturbed_inv in Hu. destruct Hu as (_ & _ & Hu). congruence.
    + specialize (IH rest
                    {| retry_count := retry_count rs + 1;
                       connection_retry_count := crc |}
                    (S n)
                    (ds ++ [inject_Z (2 * 2 ^ (retry_count rs + 1 - 1))])
                    (listen_to_chat json_loads channel (attempt r) w).1).
      cbv zeta in IH. simpl in Hlen.
      destruct IH as (Hx & Ha & Hu);
        [cbn [retry_count]; lia | lia | exact Hrest |].
      split; [exact Hx|]. split; [lia|].
      intros Hund. apply andb_true_iff in Hund.
      destruct Hund as [_ Hund]. destruct (Hu Hund) as (E1 & E2 & E3).
      repeat split; [exact E1 | lia | exact E3].
    + cbn [exit attempts final retry_count].
      split; [discriminate|]. split; [lia|].
      intros Hu. apply andb_true_iff in Hu. destruct Hu as [Hu _].
      apply undisturbed_inv in Hu. destruct Hu as (_ & _ & Hu). congruence.
Qed.

(** C7: when the first eleven attempts of a supervision lifetime all fail
    on the generic track (closures whose code is not severe, or other
    exceptions), the supervisor has ended by then: it makes at most eleven
    calls of [listen_to_chat], however many more turns the environment
    would offer, and when nobody stopped it earlier it ends by giving up
    for exceeded retries after exactly eleven attempts, the retry count at
    eleven. *)
Theorem generic_failures_exhaust_retries channel rounds w :
  (11 <= length rounds)%nat ->
  Forall (fun r =>
            generic_failure
              (listen_to_chat json_loads channel (attempt r) world0).2 = true)
         (firstn 11 rounds) ->
  let out := supervise json_loads channel rounds rs0 0 [] w in
  exit out <> StillRunning
  /\ (attempts out <= 11)%nat
  /\ (forallb undisturbed (firstn 11 rounds) = true ->
      exit out = Stopped MaxRetriesExceeded
      /\ attempts out = 11%nat
      /\ retry_count (final out) = 11%Z).
Proof.
  intros Hlen Hall.
  apply (budget_runs_out channel 10 rounds rs0 0%nat [] w); auto.
Qed.

(** C4 (as amended): a message that cannot be decoded is not caught inside
    the receive loop.  When the frame is not valid JSON, or it carries a
    handled event whose data string is not valid JSON, the loop ends there
    with [JSONDecodeError]: the later messages are not read, and the
    supervisor counts the attempt as a generic failure: the retry count
    goes up by one, the connection count stays, and it gives up above ten
    or waits out the doubling delay before the next attempt. *)
Theorem decode_failure_ends_session channel raw t rest st st' w :
  stop_is_set t = false ->
  keepalive t st = Ok st' ->
  recv t = RecvText raw ->
  (json_loads raw = None
   \/ exists fields name data_str,
        json_loads raw = Some (JObj fields)
        /\ dict_lookup "event" fields = Some (JStr name)
        /\ existsb (String.eqb name) HANDLED_EVENTS = true
        /\ dict_lookup "data" fields = Some (JStr data_str)
        /\ json_loads data_str = None) ->
  receive_loop json_loads channel (t :: rest) st w = (w, Raised JSONDecodeError)
  /\ forall r rounds rs n ds w0 w1,
       stop_set r = false -> self_running r = true ->
       listen_to_chat json_loads channel (attempt r) w0 = (w1, Raised JSONDecodeError) ->
       let rs' := {| retry_count := retry_count rs + 1;
                     connection_retry_count := connection_retry_count rs |} in
       supervise json_loads channel (r :: rounds) rs n ds w0 =
         if (retry_count rs + 1 >? 10)%Z then
           {| final := rs'; attempts := S n; delays := ds;
              exit := Stopped MaxRetriesExceeded; after := w1 |}
         else
           match wait r with
           | DelayElapsed =>
               supervise json_loads channel rounds rs' (S n)
                 (ds ++ [inject_Z (2 * 2 ^ (retry_count rs + 1 - 1))]) w1
           | StopSignalled =>
               {| final := rs'; attempts := S n; delays := ds;
                  exit := Stopped StopDuringBackoff; after := w1 |}
           | WaitCancelled =>
               {| final := rs'; attempts := S n; delays := ds;
                  exit := Unwound CancelledError; after := w1 |}
           end.
Proof.
  intros Hs Hk Hr Hbad. split.
  - cbn [receive_loop]. rewrite Hs, Hk. unfold receive. rewrite Hr.
    destruct Hbad as [Hn | (fields & name & data_str & Hd & He & Hh & Hda & Hn)].
    + rewrite Hn. reflexivity.
    + rewrite Hd. unfold handle_websocket_message.
      rewrite (dict_get_found _ _ _ _ He). unfold py_in.
      destruct (existsb (String.eqb name) IGNORED_EVENTS) eqn:Hi.
      * rewrite (ignored_not_handled _ Hi) in Hh. discriminate.
      * rewrite Hh. unfold parse_event.
        rewrite (dict_get_found _ _ _ _ He), (dict_get_found _ _ _ _ Hda), Hn.
        reflexivity.
  - intros r rounds rs n ds w0 w1 Hstop Hrun Hl.
    cbn [supervise]. rewrite Hstop, Hrun, Hl. simpl orb. cbv iota beta zeta.
    unfold is_Exception, on_exception, after_handler, max_retries, base_delay.
    cbv zeta.
    destruct (retry_count rs + 1 >? 10)%Z; [reflexivity|].
    destruct (wait r); reflexivity.
Qed.

End WithDecoder.
End SupervisorFacts.

(* ===================================================================== *)
(** ** Runs on sample inputs                                              *)
(* ===================================================================== *)

Module Runs.
Import Config KickApi Listener Cli Samples JsonRef ListenerFacts SupervisorFacts.

Lemma classifier_outcomes_witness :
  let t := tick_at 1 PongReceived (RecvText chat_frame) in
  let message :=
    JObj [("event", JStr "App\Events\ChatMessageEvent");
          ("data", JStr (dq "{'id': 'm1', 'content': 'hi'}"));
          ("channel", JStr "chatrooms.12345.v2")] in
  recv t = RecvText chat_frame
  /\ json_loads_ref chat_frame = Some message
  /\ receive json_loads_ref "xqc" t world0
     = ({| connections := 0; sent_frames := []; unhandled_log := [];
           store_calls :=
             [("xqc", {| event := "App\Events\ChatMessageEvent";
                         event_data := JObj [("id", JStr "m1");
                                             ("content", JStr "hi")] |})] |},
        Ok tt).
Proof.
  intros t message.
  assert (H1 : recv t = RecvText chat_frame) by reflexivity.
  assert (H2 : json_loads_ref chat_frame = Some message)
    by (vm_compute; reflexivity).
  split; [exact H1|]. split; [exact H2|].
  pose proof (classifier_outcomes json_loads_ref "xqc" t chat_frame message
                world0 H1 H2) as H.
  destruct H as [_ H]. exact H.
Defined.

(** C6 (as stated) fails: not every message falls under one of the three
    outcomes.  A message whose event is a list is in neither set, yet it
    is not appended to the unhandled-messages file: the membership test
    raises [TypeError].  A message that is not an object has no event to
    look at and raises [AttributeError].  A handled event whose data
    string does not decode is neither logged nor forwarded to the
    storage. *)
Lemma classifier_has_raising_outcomes :
  let listed := dq "{'event': ['x'], 'data': '{}'}" in
  let bare := dq "[1, 2]" in
  let garbled := dq "{'event': 'App\\Events\\ChatMessageEvent', 'data': 'not json'}" in
  json_loads_ref listed
  = Some (JObj [("event", JArr [JStr "x"]); ("data", JStr "{}")])
  /\ py_in (JArr [JStr "x"]) IGNORED_EVENTS <> Ok true
  /\ py_in (JArr [JStr "x"]) HANDLED_EVENTS <> Ok true
  /\ receive json_loads_ref "xqc" (tick_at 1 PongReceived (RecvText listed)) world0
     = (world0, Raise TypeError)
  /\ json_loads_ref bare = Some (JArr [JInt 1; JInt 2])
  /\ receive json_loads_ref "xqc" (tick_at 1 PongReceived (RecvText bare)) world0
     = (world0, Raise AttributeError)
  /\ existsb (String.eqb "App\Events\ChatMessageEvent") HANDLED_EVENTS = true
  /\ receive json_loads_ref "xqc" (tick_at 1 PongReceived (RecvText garbled)) world0
     = (world0, Raise JSONDecodeError).
Proof. vm_compute. repeat split; try reflexivity; discriminate. Qed.

Lemma decode_failure_ends_session_witness :
  stop_is_set (tick_at 1 PongReceived (RecvText "not json")) = false
  /\ keepalive (tick_at 1 PongReceived (RecvText "not json")) fresh_loop
     = Ok fresh_loop
  /\ json_loads_ref "not json" = None
  /\ receive_loop json_loads_ref "xqc" garbled_then_chat fresh_loop world0
     = (world0, Raised JSONDecodeError).
Proof.
  assert (H1 : stop_is_set (tick_at 1 PongReceived (RecvText "not json")) = false)
    by reflexivity.
  assert (H2 : keepalive (tick_at 1 PongReceived (RecvText "not json")) fresh_loop
               = Ok fresh_loop) by reflexivity.
  assert (H3 : json_loads_ref "not json" = None) by (vm_compute; reflexivity).
  split; [exact H1|]. split; [exact H2|]. split; [exact H3|].
  exact (proj1 (decode_failure_ends_session json_loads_ref "xqc" "not json"
                  (tick_at 1 PongReceived (RecvText "not json"))
                  [tick_at 2 PongReceived (RecvText chat_frame)]
                  fresh_loop fresh_loop world0 H1 H2 eq_refl (or_introl H3))).
Defined.

(** C4 (as stated) fails: a frame that is not JSON ends the session with
    [JSONDecodeError]; the chat message behind it is never read or stored,
    the failure reaches the supervisor, and the retry count goes from 0 to
    1 with a backoff of two seconds. *)
Lemma undecodable_frame_is_counted :
  let s := live_session garbled_then_chat in
  let out := supervise json_loads_ref "xqc" [turn s] rs0 0 [] world0 in
  (listen_to_chat json_loads_ref "xqc" s world0).2 = Raised JSONDecodeError
  /\ store_calls (listen_to_chat json_loads_ref "xqc" s world0).1 = []
  /\ final out = {| retry_count := 1; connection_retry_count := 0 |}
  /\ delays out = [2%Q].
Proof. vm_compute. repeat split; reflexivity. Qed.

Lemma generic_failures_exhaust_retries_witness :
  let rounds := repeat (turn chat_then_drop) 12 in
  (11 <= length rounds)%nat
  /\ Forall (fun r =>
               generic_failure
                 (listen_to_chat json_loads_ref "xqc" (attempt r) world0).2 = true)
            (firstn 11 rounds)
  /\ let out := supervise json_loads_ref "xqc" rounds rs0 0 [] world0 in
     exit out <> StillRunning
     /\ (attempts out <= 11)%nat
     /\ (forallb undisturbed (firstn 11 rounds) = true ->
         exit out = Stopped MaxRetriesExceeded
         /\ attempts out = 11%nat
         /\ retry_count (final out) = 11%Z).
Proof.
  intros rounds.
  assert (H1 : (11 <= length rounds)%nat) by (simpl; lia).
  assert (H2 : Forall (fun r =>
               generic_failure
                 (listen_to_chat json_loads_ref "xqc" (attempt r) world0).2 = true)
            (firstn 11 rounds))
    by (repeat (constructor; [vm_compute; reflexivity|]); constructor).
  split; [exact H1|]. split; [exact H2|].
  exact (generic_failures_exhaust_retries json_loads_ref "xqc" rounds world0 H1 H2).
Defined.

(** C1 on the code: a lookup answered with 404 or with 403, not answered
    in time, or answered with a page that decodes but names no chatroom,
    makes [listen_to_chat] return without a connection and without an
    exception.  The supervisor takes the return for a finished session:
    after a dropped connection and then a 404 it has reset both counters
    and left its loop, with no retry and no wait for the second attempt.
    Only a 200 whose body does not decode raises, and that one failure is
    counted on the generic track. *)
Theorem resolution_failure_taken_for_success :
  Forall (fun http =>
            listen_to_chat json_loads_ref "xqc" (lookup_session http) world0
            = (world0, Returned))
         [HttpResponse 404 "Not Found"; HttpResponse 403 "Forbidden";
          HttpResponse 200 (dq "{'id': 7, 'slug': 'xqc'}"); HttpTimeout]
  /\ (let out := supervise json_loads_ref "xqc"
                   [turn chat_then_drop;
                    turn (lookup_session (HttpResponse 404 "Not Found"));
                    turn chat_then_drop]
                   rs0 0 [] world0 in
      exit out = Stopped SessionReturned
      /\ final out = {| retry_count := 0; connection_retry_count := 0 |}
      /\ attempts out = 2%nat
      /\ delays out = [2%Q]
      /\ connections (after out) = 1%nat)
  /\ (let busy := lookup_session (HttpResponse 200 "<html>busy</html>") in
      let out := supervise json_loads_ref "xqc" [turn busy] rs0 0 [] world0 in
      listen_to_chat json_loads_ref "xqc" busy world0
      = (world0, Raised JSONDecodeError)
      /\ final out = {| retry_count := 1; connection_retry_count := 0 |}
      /\ delays out = [2%Q]).
Proof.
  split; [|split].
  - repeat (constructor; [vm_compute; reflexivity|]). constructor.
  - vm_compute. repeat split; reflexivity.
  - vm_compute. repeat split; reflexivity.
Qed.

(** C2 on the code: two sessions in a row each connect, subscribe, store a
    chat message and then lose the connection.  The second failure is
    counted on top of the first (both counters at 2, delays of 2 and 4
    seconds): the session that ran in between reset nothing.  Eleven such
    sessions exhaust the retry budget although each of them ran. *)
Theorem counters_not_reset_by_session :
  let two := supervise json_loads_ref "xqc"
               [turn chat_then_drop; turn chat_then_drop] rs0 0 [] world0 in
  let many := supervise json_loads_ref "xqc"
                (repeat (turn chat_then_drop) 12) rs0 0 [] world0 in
  (final two = {| retry_count := 2; connection_retry_count := 2 |}
   /\ delays two = [2%Q; 4%Q]
   /\ length (store_calls (after two)) = 2%nat)
  /\ (exit many = Stopped MaxRetriesExceeded
      /\ attempts many = 11%nat
      /\ length (store_calls (after many)) = 11%nat).
Proof. vm_compute. repeat split; reflexivity. Qed.

(** C8 on the code: three unanswered pings end the session with the
    closure the code builds, code 1011 in the frame marked as sent and no
    frame received.  The supervisor reads the code off the received frame,
    finds 1006, and follows the generic track: the retry count goes up and
    the delay is the generic two seconds.  A closure whose received frame
    carries 1011 follows the severe track: retry count untouched, delay
    1.5 seconds. *)
Theorem ping_timeout_closure_counted_generic :
  let out := supervise json_loads_ref "xqc" [turn three_ping_timeouts]
               rs0 0 [] world0 in
  (listen_to_chat json_loads_ref "xqc" three_ping_timeouts world0).2
  = Raised (ConnectionClosed None
              (Some {| close_code := 1011; close_reason := "Ping timeout" |}))
  /\ generic_failure
       (listen_to_chat json_loads_ref "xqc" three_ping_timeouts world0).2 = true
  /\ final out = {| retry_count := 1; connection_retry_count := 1 |}
  /\ delays out = [2%Q]
  /\ on_connection_closed
       (Some {| close_code := 1011; close_reason := "Ping timeout" |}) rs0
     = ({| retry_count := 0; connection_retry_count := 1 |}, Backoff (3 # 2)).
Proof. vm_compute. repeat split; reflexivity. Qed.

End Runs.

(* ===================================================================== *)
(** ** More on the sanitizer, and the channel registry of the database    *)
(* ===================================================================== *)

Module SanitizeMore.
Import Sanitize SanitizeFacts.

(** What the sanitizer still tells apart after lowercasing: whitespace and
    the characters of the class stay themselves, everything else looks
    like an underscore. *)
Lemma ascii_lower_ascii c : is_ascii c = true -> is_ascii (ascii_lower c) = true.
Proof.
  unfold ascii_lower, is_ascii, is_ascii_upper. intros Hc.
  destruct ((65 <=? c)%N && (c <=? 90)%N) eqn:E; [|exact Hc].
  n_bool. lia.
Qed.

Lemma ascii_lower_not_upper c : is_ascii_upper (ascii_lower c) = false.
Proof.
  unfold ascii_lower. destruct (is_ascii_upper c) eqn:E; [|exact E].
  unfold is_ascii_upper in *. n_bool. lia.
Qed.

Lemma ascii_lower_twice c : ascii_lower (ascii_lower c) = ascii_lower c.
Proof.
  unfold ascii_lower at 1. rewrite ascii_lower_not_upper. reflexivity.
Qed.

Lemma lstrip_all_space s : forallb is_space s = true -> lstrip s = [].
Proof.
  induction s as [|c r IH]; simpl; [reflexivity|].
  intros Hs. apply andb_true_iff in Hs. destruct Hs as [Hc Hr].
  rewrite Hc. exact (IH Hr).
Qed.

Lemma str_strip_empty_iff s : str_strip s = [] <-> forallb is_space s = true.
Proof.
  split.
  - intros He. destruct (str_strip_split s) as (pre & post & Hs & Hp & Hq).
    rewrite He in Hs. rewrite Hs. simpl. rewrite forallb_app, Hp, Hq.
    reflexivity.
  - intros Hs. unfold str_strip. rewrite (lstrip_all_space _ Hs). reflexivity.
Qed.

Lemma lstrip_map (f : N -> N) s :
  (forall c, is_space (f c) = is_space c) ->
  lstrip (map f s) = map f (lstrip s).
Proof.
  intros Hf. induction s as [|c r IH]; simpl; [reflexivity|].
  rewrite Hf. destruct (is_space c); [exact IH | reflexivity].
Qed.

Lemma str_strip_map (f : N -> N) s :
  (forall c, is_space (f c) = is_space c) ->
  str_strip (map f s) = map f (str_strip s).
Proof.
  intros Hf. unfold str_strip, rstrip.
  rewrite (lstrip_map f s Hf), <- map_rev, (lstrip_map f _ Hf), map_rev.
  reflexivity.
Qed.

Section WithUnicode.
Context `{PyUnicode}.

Lemma sanitize_twice name :
  sanitize_channel_name (sanitize_channel_name name) = sanitize_channel_name name.
Proof.
  pose proof (sanitize_channel_name_keys name) as Hk.
  unfold sanitize_channel_name at 1.
  rewrite (str_lower_keys _ Hk), (str_strip_keys _ Hk).
  apply re_sub_invalid_keys. exact Hk.
Qed.

(** X1: for a name of ASCII characters the sanitizer does not see the case
    of the letters: the name and its lowercase form sanitize alike. *)
Theorem sanitize_ignores_ascii_case name :
  forallb is_ascii name = true ->
  sanitize_channel_name (map ascii_lower name) = sanitize_channel_name name.
Proof.
  intros Ha. unfold sanitize_channel_name.
  rewrite (str_lower_ascii name Ha).
  rewrite str_lower_ascii.
  - rewrite map_map.
    rewrite (map_ext _ ascii_lower (fun c => ascii_lower_twice c)).
    reflexivity.
  - rewrite forallb_forall in *. intros x Hx. apply in_map_iff in Hx.
    destruct Hx as (c & <- & Hc). apply ascii_lower_ascii. auto.
Qed.

(** X2: the sanitized name is empty exactly when the lowercased name is
    all whitespace (the empty name included); the table name is then the
    bare prefix. *)
Theorem sanitize_empty_iff name :
  (sanitize_channel_name name = []
   <-> forallb is_space (str_lower name) = true)
  /\ (sanitize_channel_name name = []
      <-> get_channel_table_name name = CHANNEL_TABLE_PREFIX).
Proof.
  split.
  - unfold sanitize_channel_name, re_sub_invalid.
    rewrite <- str_strip_empty_iff.
    destruct (str_strip (str_lower name)); simpl; split; congruence.
  - unfold get_channel_table_name. split.
    + intros ->. apply app_nil_r.
    + intros He. rewrite <- (app_nil_r CHANNEL_TABLE_PREFIX) in He at 2.
      apply app_inv_head in He. exact He.
Qed.

(** X3: the table name of a sanitized name is the table name of the raw
    name, and two names share a table exactly when they sanitize alike. *)
Theorem table_name_by_sanitized_name a b :
  get_channel_table_name (sanitize_channel_name a) = get_channel_table_name a
  /\ (get_channel_table_name a = get_channel_table_name b
      <-> sanitize_channel_name a = sanitize_channel_name b).
Proof.
  unfold get_channel_table_name. split.
  - rewrite sanitize_twice. reflexivity.
  - split; [apply app_inv_head | intros ->; reflexivity].
Qed.

Lemma sanitize_by_marks a b :
  map (fun c => if is_space c then c else if in_class c then c else underscore)
      (str_lower a)
  = map (fun c => if is_space c then c else if in_class c then c else underscore)
        (str_lower b) ->
  sanitize_channel_name a = sanitize_channel_name b.
Proof.
  set (mark := fun c => if is_space c then c else if in_class c then c else underscore).
  assert (Hsp : forall c, is_space (mark c) = is_space c).
  { intros c. unfold mark. destruct (is_space c) eqn:Es; [exact Es|].
    destruct (in_class c); [exact Es | reflexivity]. }
  assert (Hre : forall s, re_sub_invalid (map mark s) = re_sub_invalid s).
  { intros s. unfold re_sub_invalid. rewrite map_map. apply map_ext.
    intros c. unfold mark. destruct (is_space c); [reflexivity|].
    destruct (in_class c) eqn:Ec; [rewrite Ec; reflexivity | reflexivity]. }
  intros Heq. unfold sanitize_channel_name.
  rewrite <- (Hre (str_strip (str_lower a))), <- (Hre (str_strip (str_lower b))).
  rewrite <- !(str_strip_map mark _ Hsp), Heq. reflexivity.
Qed.

(** X4: in a name of ASCII characters, a character that is neither of the
    class [a-zA-Z0-9_] nor whitespace is as good as an underscore: the name
    and the name with an underscore in its place sanitize alike, so both
    land in one table. *)
Theorem sanitize_collides_on_punctuation a c b :
  forallb is_ascii (a ++ c :: b) = true ->
  in_class c = false -> is_space c = false ->
  sanitize_channel_name (a ++ c :: b) = sanitize_channel_name (a ++ underscore :: b).
Proof.
  intros Ha Hc Hs. apply sanitize_by_marks.
  rewrite forallb_app in Ha. apply andb_true_iff in Ha. destruct Ha as [Ha Hcb].
  simpl in Hcb. apply andb_true_iff in Hcb. destruct Hcb as [Hca Hb].
  rewrite !str_lower_ascii
    by (rewrite forallb_app; simpl; rewrite Ha, Hb, ?Hca; reflexivity).
  rewrite !map_app. simpl. f_equal. f_equal.
  assert (Hu : is_ascii_upper c = false).
  { unfold in_class in Hc. apply orb_false_iff in Hc. destruct Hc as [Hc _].
    apply orb_false_iff in Hc. destruct Hc as [Hc _].
    apply orb_false_iff in Hc. destruct Hc as [_ Hc]. exact Hc. }
  unfold ascii_lower. rewrite Hu, Hs, Hc. reflexivity.
Qed.

End WithUnicode.

Lemma sanitize_ignores_ascii_case_witness :
  forallb is_ascii (pystr_of "xQc") = true
  /\ sanitize_channel_name (map ascii_lower (pystr_of "xQc"))
     = sanitize_channel_name (pystr_of "xQc").
Proof.
  split; [reflexivity|].
  exact (sanitize_ignores_ascii_case (pystr_of "xQc") eq_refl).
Defined.

Lemma sanitize_collides_on_punctuation_witness :
  forallb is_ascii (pystr_of "xqc" ++ 46%N :: []) = true
  /\ in_class 46%N = false /\ is_space 46%N = false
  /\ sanitize_channel_name (pystr_of "xqc" ++ 46%N :: [])
     = sanitize_channel_name (pystr_of "xqc" ++ underscore :: []).
Proof.
  split; [reflexivity|]. split; [reflexivity|]. split; [reflexivity|].
  exact (sanitize_collides_on_punctuation (pystr_of "xqc") 46%N []
           eq_refl eq_refl eq_refl).
Defined.

End SanitizeMore.

Module StorageFacts.
Import Sanitize SanitizeFacts SanitizeMore Storage Samples.

Section WithUnicode.
Context `{PyUnicode}.

Lemma validate_found name db :
  is_Some (db !! sanitize_channel_name name) ->
  _validate_and_normalize_channel name true db = Some (sanitize_channel_name name).
Proof.
  intros Hs. unfold _validate_and_normalize_channel, channel_exists.
  rewrite sanitize_twice. rewrite bool_decide_eq_true_2 by exact Hs.
  reflexivity.
Qed.

Lemma validate_some name io db n :
  _validate_and_normalize_channel name io db = Some n ->
  n = sanitize_channel_name name /\ io = true /\ is_Some (db !! n).
Proof.
  unfold _validate_and_normalize_channel, channel_exists.
  rewrite sanitize_twice. destruct io; simpl; [|discriminate].
  case_bool_decide as Hd; simpl; [|discriminate].
  intros [= <-]. auto.
Qed.

(** X5: once [add_channel] has answered [True] for a name, the channel is
    found under every spelling that sanitizes to the same name: it exists,
    it validates to the sanitized name, and its row is not paused. *)
Theorem added_channel_found_under_any_spelling name other io table_created db db' :
  add_channel name io table_created db = (db', true) ->
  sanitize_channel_name other = sanitize_channel_name name ->
  channel_exists other true db' = true
  /\ _validate_and_normalize_channel other true db'
     = Some (sanitize_channel_name name)
  /\ db' !! sanitize_channel_name name = Some false.
Proof.
  unfold add_channel. intros Ha Ho.
  destruct io; simpl in Ha; [|congruence].
  destruct (db !! sanitize_channel_name name) eqn:El; [congruence|].
  destruct table_created; [|congruence].
  injection Ha as <-.
  assert (Hl : <[sanitize_channel_name name := false]> db
               !! sanitize_channel_name name = Some false)
    by apply lookup_insert_eq.
  split; [|split].
  - unfold channel_exists. rewrite Ho, Hl. reflexivity.
  - rewrite <- Ho. apply validate_found. rewrite Ho, Hl. eauto.
  - exact Hl.
Qed.

(** X6: a channel that exists is not added a second time, under whatever
    spelling of the same sanitized name: [add_channel] answers [False] and
    leaves the table as it was.  More generally a refused [add_channel]
    changes nothing. *)
Theorem add_channel_refuses_existing name other io table_created db :
  channel_exists name true db = true ->
  sanitize_channel_name other = sanitize_channel_name name ->
  add_channel other io table_created db = (db, false)
  /\ forall any io' tc',
       (add_channel any io' tc' db).2 = false ->
       (add_channel any io' tc' db).1 = db.
Proof.
  intros He Ho. split.
  - unfold channel_exists in He. apply bool_decide_eq_true_1 in He.
    destruct He as [p Hp]. unfold add_channel. rewrite Ho, Hp.
    destruct io; reflexivity.
  - intros any io' tc'. unfold add_channel.
    destruct io'; simpl; [|reflexivity].
    destruct (db !! sanitize_channel_name any); [reflexivity|].
    destruct tc'; simpl; [discriminate | reflexivity].
Qed.

Lemma active_iff db n : n ∈ get_active_channels true db <-> db !! n = Some false.
Proof.
  unfold get_active_channels. rewrite list_elem_of_fmap. split.
  - intros ([k v] & -> & Hkv). apply elem_of_map_to_list in Hkv.
    apply map_lookup_filter_Some in Hkv. simpl in *.
    destruct Hkv as [Hl ->]. exact Hl.
  - intros Hl. exists (n, false). split; [reflexivity|].
    apply elem_of_map_to_list. apply map_lookup_filter_Some. auto.
Qed.

Lemma paused_iff db n : n ∈ get_paused_channels true db <-> db !! n = Some true.
Proof.
  unfold get_paused_channels. rewrite list_elem_of_fmap. split.
  - intros ([k v] & -> & Hkv). apply elem_of_map_to_list in Hkv.
    apply map_lookup_filter_Some in Hkv. simpl in *.
    destruct Hkv as [Hl ->]. exact Hl.
  - intros Hl. exists (n, true). split; [reflexivity|].
    apply elem_of_map_to_list. apply map_lookup_filter_Some. auto.
Qed.

(** X7: for a channel that exists under a name that does not sanitize to
    the empty string, pausing and then resuming both succeed; after the
    pause the channel is listed as paused and not as active, after the
    resume it is listed as active again; no other row changes. *)
Theorem pause_then_resume name db :
  sanitize_channel_name name <> [] ->
  is_Some (db !! sanitize_channel_name name) ->
  let paused := pause_channel name true true db in
  let resumed := resume_channel name true true paused.1 in
  paused.2 = true /\ resumed.2 = true
  /\ (sanitize_channel_name name ∈ get_paused_channels true paused.1)
  /\ (sanitize_channel_name name ∉ get_active_channels true paused.1)
  /\ (sanitize_channel_name name ∈ get_active_channels true resumed.1)
  /\ (forall other, other <> sanitize_channel_name name ->
        paused.1 !! other = db !! other /\ resumed.1 !! other = db !! other).
Proof.
  intros Hne [p Hp]. cbv zeta.
  set (n := sanitize_channel_name name) in *.
  assert (Hpause : pause_channel name true true db = (<[n := true]> db, true)).
  { unfold pause_channel. rewrite validate_found by (fold n; eauto). fold n.
    destruct n as [|c r] eqn:En; [congruence|]. simpl.
    unfold set_paused. rewrite Hp. reflexivity. }
  rewrite Hpause. cbn [fst snd].
  assert (Hresume : resume_channel name true true (<[n := true]> db)
                    = (<[n := false]> db, true)).
  { unfold resume_channel.
    rewrite validate_found by (fold n; rewrite lookup_insert_eq; eauto). fold n.
    destruct n as [|c r] eqn:En; [congruence|]. simpl.
    unfold set_paused. rewrite lookup_insert_eq, insert_insert_eq. reflexivity. }
  rewrite Hresume. cbn [fst snd].
  repeat split.
  - apply paused_iff. apply lookup_insert_eq.
  - rewrite active_iff, lookup_insert_eq. discriminate.
  - apply active_iff. apply lookup_insert_eq.
  - apply lookup_insert_ne. congruence.
  - apply lookup_insert_ne. congruence.
Qed.

(** X8: a name that sanitizes to the empty string (a blank name) can be
    added, but the row can then be neither paused nor resumed: both
    operations take the empty name for a missing one, answer [False] and
    change nothing. *)
Theorem blank_name_added_but_never_paused name db :
  sanitize_channel_name name = [] ->
  db !! [] = None ->
  let added := add_channel name true true db in
  added.2 = true
  /\ channel_exists name true added.1 = true
  /\ (forall io1 io2, pause_channel name io1 io2 added.1 = (added.1, false))
  /\ (forall io1 io2, resume_channel name io1 io2 added.1 = (added.1, false)).
Proof.
  intros Hb Hd. cbv zeta. unfold add_channel. rewrite Hb, Hd. simpl.
  assert (Hv : forall io d, not_name (_validate_and_normalize_channel name io d) = true).
  { intros io d. unfold _validate_and_normalize_channel. rewrite Hb.
    destruct (negb _); reflexivity. }
  repeat split.
  - unfold channel_exists. rewrite Hb, lookup_insert_eq. reflexivity.
  - intros io1 io2. unfold pause_channel. rewrite Hv. reflexivity.
  - intros io1 io2. unfold resume_channel. rewrite Hv. reflexivity.
Qed.

End WithUnicode.

Lemma added_channel_found_under_any_spelling_witness :
  add_channel (pystr_of "xQc") true true ∅ = (xqc_table, true)
  /\ sanitize_channel_name (pystr_of " XQC ") = sanitize_channel_name (pystr_of "xQc")
  /\ channel_exists (pystr_of " XQC ") true xqc_table = true.
Proof.
  assert (H1 : add_channel (pystr_of "xQc") true true ∅
               = (xqc_table, true)) by reflexivity.
  assert (H2 : sanitize_channel_name (pystr_of " XQC ")
               = sanitize_channel_name (pystr_of "xQc")) by reflexivity.
  split; [exact H1|]. split; [exact H2|].
  exact (proj1 (added_channel_found_under_any_spelling
                  (pystr_of "xQc") (pystr_of " XQC ") true true ∅ _ H1 H2)).
Defined.

Lemma add_channel_refuses_existing_witness :
  channel_exists (pystr_of "xqc") true xqc_table = true
  /\ sanitize_channel_name (pystr_of "XQC") = sanitize_channel_name (pystr_of "xqc")
  /\ add_channel (pystr_of "XQC") true true xqc_table
     = (xqc_table, false).
Proof.
  assert (H1 : channel_exists (pystr_of "xqc") true xqc_table = true)
    by (vm_compute; reflexivity).
  assert (H2 : sanitize_channel_name (pystr_of "XQC")
               = sanitize_channel_name (pystr_of "xqc")) by reflexivity.
  split; [exact H1|]. split; [exact H2|].
  exact (proj1 (add_channel_refuses_existing
                  (pystr_of "xqc") (pystr_of "XQC") true true _ H1 H2)).
Defined.

Lemma pause_then_resume_witness :
  sanitize_channel_name (pystr_of "xqc") <> []
  /\ is_Some (xqc_table !! sanitize_channel_name (pystr_of "xqc"))
  /\ (pause_channel (pystr_of "xqc") true true xqc_table).2 = true.
Proof.
  assert (H1 : sanitize_channel_name (pystr_of "xqc") <> []) by discriminate.
  assert (H2 : is_Some (xqc_table !! sanitize_channel_name (pystr_of "xqc")))
    by (exists false; vm_compute; reflexivity).
  split; [exact H1|]. split; [exact H2|].
  exact (proj1 (pause_then_resume (pystr_of "xqc") _ H1 H2)).
Defined.

Lemma blank_name_added_but_never_paused_witness :
  sanitize_channel_name (pystr_of "  ") = []
  /\ (∅ : gmap (list N) bool) !! [] = None
  /\ (add_channel (pystr_of "  ") true true ∅).2 = true.
Proof.
  split; [reflexivity|]. split; [reflexivity|].
  exact (proj1 (blank_name_added_but_never_paused (pystr_of "  ") ∅
                  eq_refl eq_refl)).
Defined.

End StorageFacts.

(* ===================================================================== *)
(** ** More on the lookup, the classifier and the session loop            *)
(* ===================================================================== *)

Module ListenerMore.
Import Config KickApi Listener Cli Samples JsonRef ListenerFacts.

Section WithDecoder.
Variable json_loads : string -> option json.

(** X9: a lookup succeeds exactly when the request is answered with status
    200 and a body that decodes, and the data is then the decoded body; it
    fails, with no data, exactly when the request timed out (no status) or
    was answered with another status, which the result keeps; it raises in
    two cases only: the request itself failed, or the body of a 200 does
    not decode, the handler for that naming another exception class. *)
Theorem get_channel_info_outcomes http :
  match get_channel_info json_loads http with
  | Ok r =>
      (success r = true <->
       exists body d, http = HttpResponse 200 body
                      /\ json_loads body = Some d /\ data r = d)
      /\ (success r = false <->
          (http = HttpTimeout /\ status_code r = None /\ data r = JNull)
          \/ (exists status body,
                http = HttpResponse status body /\ status <> 200%Z
                /\ status_code r = Some status /\ data r = JNull))
      /\ (forall status body,
            http = HttpResponse status body -> status_code r = Some status)
  | Raise e =>
      (http = HttpError /\ e = OSError)
      \/ (exists body, http = HttpResponse 200 body
                       /\ json_loads body = None /\ e = JSONDecodeError)
  end.
Proof.
  destruct http as [status body| |]; simpl; [| |auto].
  - unfold _handle_channel_response.
    destruct (Z.eqb_spec status 200) as [->|Hne].
    + destruct (json_loads body) as [d|] eqn:Ed; simpl.
      * split; [|split].
        -- split; eauto.
        -- split; [discriminate|].
           intros [(Hh & _) | (st & b & [= <- <-] & Hn & _)];
             [discriminate | congruence].
        -- intros ? ? [= <- <-]; reflexivity.
      * right. exists body. auto.
    + assert (Hno : (exists body0 d, HttpResponse status body = HttpResponse 200 body0
                       /\ json_loads body0 = Some d /\ JNull = d) -> false = true)
        by (intros (b & d & [= ? ?] & _); congruence).
      destruct (Z.eqb_spec status 403) as [->|H403];
        [|destruct (Z.eqb_spec status 404) as [->|H404]]; simpl;
        (split; [split; [discriminate | exact Hno] |
                 split; [split; [intros _; right; eexists _, body; auto
                                | reflexivity]
                        | intros ? ? [= <- <-]; reflexivity]]).
  - split; [split; [discriminate|] | split; [split; auto | discriminate]].
    intros (b & d & Hh & _). discriminate.
Qed.

(** X10: [get_chatroom_id] raises in three cases only: the request itself
    failed; the body of a 200 does not decode ([JSONDecodeError]); or a
    decodable 200 page that is a non-empty object binds [chatroom] to
    something that is not an object ([AttributeError]).  A page without
    [chatroom], like every lookup that fails with a result, gives
    [None]. *)
Theorem get_chatroom_id_raises http e :
  get_chatroom_id json_loads http = Raise e
  <-> (http = HttpError /\ e = OSError)
      \/ (exists body,
            http = HttpResponse 200 body
            /\ json_loads body = None /\ e = JSONDecodeError)
      \/ (exists body fields v,
            http = HttpResponse 200 body
            /\ json_loads body = Some (JObj fields)
            /\ fields <> []
            /\ dict_lookup "chatroom" fields = Some v
            /\ (forall c, v <> JObj c)
            /\ e = AttributeError).
Proof.
  unfold get_chatroom_id. split.
  - destruct http as [status body| |]; simpl; [| discriminate | intros [= <-]; auto].
    unfold _handle_channel_response.
    destruct (Z.eqb_spec status 200) as [->|Hne].
    + destruct (json_loads body) as [d|] eqn:Ed; simpl.
      2: { intros [= <-]. right. left. exists body. auto. }
      destruct (truthy d) eqn:Et; simpl; [|discriminate].
      destruct d; try discriminate.
      unfold dict_get.
      destruct (dict_lookup "chatroom" fields) as [v|] eqn:Ec; [|discriminate].
      intros Hr. right. right. exists body, fields, v.
      repeat split; auto.
      * destruct fields; [discriminate | congruence].
      * intros c ->. discriminate.
      * destruct v; congruence.
    + destruct (status =? 403)%Z; [discriminate|].
      destruct (status =? 404)%Z; discriminate.
  - intros [[-> ->] | [(body & -> & Hd & ->)
                      | (body & fields & v & -> & Hd & Hne & Hc & Hv & ->)]].
    + reflexivity.
    + simpl. unfold _handle_channel_response. simpl. rewrite Hd. reflexivity.
    + simpl. unfold _handle_channel_response. simpl. rewrite Hd. simpl.
      destruct fields as [|f fs]; [congruence|]. simpl.
      unfold dict_get. rewrite Hc.
      destruct v; try reflexivity. exfalso. eapply Hv. reflexivity.
Qed.

Lemma parse_event_name fields name :
  dict_get fields "event" JNull = JStr name ->
  match parse_event json_loads fields with
  | Ok ev => event ev = name
  | Raise e => e = JSONDecodeError
  end.
Proof.
  intros He. unfold parse_event. rewrite He.
  destruct (dict_get fields "data" (JStr "{}")); try reflexivity.
  destruct (json_loads s); reflexivity.
Qed.

(** One pass of the receive part opens no connection and calls [ws.send]
    for nothing, and adds at most one line or one store call. *)
Lemma receive_effects channel t w :
  let w' := (receive json_loads channel t w).1 in
  connections w' = connections w /\ sent_frames w' = sent_frames w
  /\ exists logged stored,
       unhandled_log w' = unhandled_log w ++ logged
       /\ store_calls w' = store_calls w ++ stored
       /\ (length logged + length stored <= 1)%nat
       /\ Forall (fun ce => ce.1 = channel
                            /\ existsb (String.eqb (event ce.2)) HANDLED_EVENTS = true)
                 stored.
Proof.
  cbv zeta.
  assert (Hsame : connections w = connections w /\ sent_frames w = sent_frames w
            /\ exists logged stored,
                 unhandled_log w = unhandled_log w ++ logged
                 /\ store_calls w = store_calls w ++ stored
                 /\ (length logged + length stored <= 1)%nat
                 /\ Forall (fun ce => ce.1 = channel
                            /\ existsb (String.eqb (event ce.2)) HANDLED_EVENTS = true)
                           stored).
  { repeat split. exists [], []. rewrite !app_nil_r. repeat split; auto. }
  unfold receive. destruct (recv t); try exact Hsame.
  destruct (json_loads raw) as [m|]; [|exact Hsame].
  unfold handle_websocket_message. destruct m; try exact Hsame.
  destruct (dict_get fields "event" JNull) as [| | | |name| |] eqn:Ee;
    cbn [py_in]; try exact Hsame;
    try (simpl; repeat split; exists [JObj fields], []; rewrite app_nil_r;
         repeat split; auto).
  destruct (existsb (String.eqb name) IGNORED_EVENTS); [exact Hsame|].
  destruct (existsb (String.eqb name) HANDLED_EVENTS) eqn:Eh.
  - pose proof (parse_event_name fields name Ee) as Hp.
    destruct (parse_event json_loads fields) as [ev|e]; [|exact Hsame].
    destruct (store t); simpl; repeat split; exists [], [(channel, ev)];
      rewrite app_nil_r; repeat split; auto; constructor; [|constructor| |constructor];
      simpl; rewrite Hp; auto.
  - simpl. repeat split. exists [JObj fields], []. rewrite app_nil_r.
    repeat split; auto.
Qed.

Lemma receive_loop_keeps_connection channel ts : forall st w,
  connections (receive_loop json_loads channel ts st w).1 = connections w
  /\ sent_frames (receive_loop json_loads channel ts st w).1 = sent_frames w.
Proof.
  induction ts as [|t rest IH]; intros st w; [simpl; auto|].
  cbn [receive_loop]. destruct (stop_is_set t); [simpl; auto|].
  destruct (keepalive t st) as [st'|e]; [|simpl; auto].
  pose proof (receive_effects channel t w) as Hr. cbv zeta in Hr.
  destruct Hr as (Hc & Hf & _).
  destruct (receive json_loads channel t w) as [w1 [u|e]]; cbn [fst] in *.
  - destruct (IH st' w1) as [Hc2 Hf2]. split; congruence.
  - auto.
Qed.

(** X11: the receive loop opens no connection; to the unhandled-messages
    file and to the store calls it only appends, at most one entry per
    pass, and every store call it makes is for this channel and carries an
    event whose name is in [HANDLED_EVENTS]. *)
Theorem receive_loop_appends_only channel ts : forall st w,
  let w' := (receive_loop json_loads channel ts st w).1 in
  connections w' = connections w
  /\ exists logged stored,
       unhandled_log w' = unhandled_log w ++ logged
       /\ store_calls w' = store_calls w ++ stored
       /\ (length logged + length stored <= length ts)%nat
       /\ Forall (fun ce => ce.1 = channel
                            /\ existsb (String.eqb (event ce.2)) HANDLED_EVENTS = true)
                 stored.
Proof.
  induction ts as [|t rest IH]; intros st w; cbv zeta.
  - simpl. repeat split. exists [], []. rewrite !app_nil_r. repeat split; auto.
  - assert (Hsame : connections w = connections w
            /\ exists logged stored,
                 unhandled_log w = unhandled_log w ++ logged
                 /\ store_calls w = store_calls w ++ stored
                 /\ (length logged + length stored <= length (t :: rest))%nat
                 /\ Forall (fun ce => ce.1 = channel
                            /\ existsb (String.eqb (event ce.2)) HANDLED_EVENTS = true)
                           stored).
    { repeat split. exists [], []. rewrite !app_nil_r. simpl.
      repeat split; auto. lia. }
    cbn [receive_loop]. destruct (stop_is_set t); [exact Hsame|].
    destruct (keepalive t st) as [st'|e]; [|exact Hsame].
    pose proof (receive_effects channel t w) as Hr. cbv zeta in Hr.
    destruct (receive json_loads channel t w) as [w1 [u|e]]; cbn [fst] in *.
    + destruct Hr as (Hc & Hf & l1 & s1 & Hl1 & Hs1 & Hn1 & Ha1).
      destruct (IH st' w1) as (Hc2 & l2 & s2 & Hl2 & Hs2 & Hn2 & Ha2).
      split; [congruence|].
      exists (l1 ++ l2), (s1 ++ s2).
      rewrite Hl2, Hs2, Hl1, Hs1, <- !app_assoc, !length_app.
      repeat split; auto; [simpl; lia | apply Forall_app; auto].
    + destruct Hr as (Hc & Hf & l1 & s1 & Hl1 & Hs1 & Hn1 & Ha1).
      split; [exact Hc|].
      exists l1, s1. repeat split; auto. simpl. lia.
Qed.


End WithDecoder.
End ListenerMore.

Module LoopFacts.
Import Config KickApi Listener Cli Samples JsonRef ListenerFacts ListenerMore.

Section WithDecoder.
Variable json_loads : string -> option json.

(** X13: once a pass finds the stop event set, the loop has ended: it
    neither reads nor stores anything that comes after, whatever that is,
    and it is not left waiting. *)
Theorem stop_flag_ends_loop channel pre t : forall rest1 rest2 st w,
  stop_is_set t = true ->
  receive_loop json_loads channel (pre ++ t :: rest1) st w
  = receive_loop json_loads channel (pre ++ t :: rest2) st w
  /\ (receive_loop json_loads channel (pre ++ t :: rest1) st w).2 <> Pending.
Proof.
  induction pre as [|p pre IH]; intros rest1 rest2 st w Ht.
  - simpl. rewrite Ht. split; [reflexivity | discriminate].
  - cbn [app receive_loop]. destruct (stop_is_set p); [split; [reflexivity|discriminate]|].
    destruct (keepalive p st) as [st'|e]; [|split; [reflexivity|discriminate]].
    destruct (receive json_loads channel p w) as [w1 [u|e]];
      [apply IH; exact Ht | split; [reflexivity|discriminate]].
Qed.

(** The keepalive step case by case: nothing happens until more than 1200
    seconds have passed since the last ping; a due ping that is answered
    resets the failure count; one that times out ends the session when two
    failures were already counted, and otherwise counts one more. *)
Lemma keepalive_cases t st :
  ((current_time t - last_ping_time st <= 1200)%Z -> keepalive t st = Ok st)
  /\ ((current_time t - last_ping_time st > 1200)%Z ->
      match ping t with
      | PongReceived =>
          keepalive t st
          = Ok {| last_ping_time := current_time t; consecutive_ping_failures := 0 |}
      | PongTimeout =>
          ((consecutive_ping_failures st >= 2)%Z ->
           keepalive t st = Raise ping_timeout_closure)
          /\ ((consecutive_ping_failures st < 2)%Z ->
              keepalive t st
              = Ok {| last_ping_time := current_time t;
                      consecutive_ping_failures := consecutive_ping_failures st + 1 |})
      | PingClosed rcvd sent => keepalive t st = Raise (ConnectionClosed rcvd sent)
      end).
Proof.
  unfold keepalive, PING_INTERVAL_MINUTES. split; intros Hd.
  - replace (current_time t - last_ping_time st >? 60 * 20)%Z with false
      by (symmetry; rewrite Z.gtb_ltb; apply Z.ltb_ge; lia).
    reflexivity.
  - replace (current_time t - last_ping_time st >? 60 * 20)%Z with true
      by (symmetry; apply Z.gtb_lt; lia).
    destruct (ping t); try reflexivity.
    split; intros Hf.
    + replace (consecutive_ping_failures st + 1 >=? 3)%Z with true
        by (symmetry; apply Z.geb_le; lia).
      reflexivity.
    + replace (consecutive_ping_failures st + 1 >=? 3)%Z with false
        by (symmetry; rewrite Z.geb_leb; apply Z.leb_gt; lia).
      reflexivity.
Qed.

(** X14: a connection whose pings are all answered is never closed by the
    keepalive, whatever failure count the loop starts with: as long as
    nothing arrives and nobody asks it to stop, the loop keeps going, and
    it writes no line and makes no store call. *)
Theorem answered_pings_keep_session channel ts : forall st w,
  (forall t, In t ts ->
     stop_is_set t = false /\ ping t = PongReceived /\ recv t = RecvTimeout) ->
  let out := receive_loop json_loads channel ts st w in
  out.2 = Pending
  /\ unhandled_log out.1 = unhandled_log w
  /\ store_calls out.1 = store_calls w.
Proof.
  induction ts as [|t rest IH]; intros st w Hall; [simpl; auto|].
  destruct (Hall t) as (Hs & Hp & Hr); [simpl; auto|].
  cbv zeta. cbn [receive_loop]. rewrite Hs.
  assert (Hk : exists st', keepalive t st = Ok st').
  { unfold keepalive. rewrite Hp.
    destruct (_ >? _)%Z; eauto. }
  destruct Hk as (st' & ->). unfold receive. rewrite Hr.
  apply IH. intros t' Ht'. apply Hall. simpl. auto.
Qed.

(** X15: a message object that has no [event] field, or whose [event] is
    null, a boolean or a number, goes the way of an unhandled event: it is
    appended to the unhandled-messages file once and nothing is stored. *)
Theorem nameless_message_is_logged channel t raw fields w :
  recv t = RecvText raw ->
  json_loads raw = Some (JObj fields) ->
  match dict_get fields "event" JNull with
  | JNull | JBool _ | JInt _ | JFloat _ => True
  | _ => False
  end ->
  receive json_loads channel t w
  = (_log_unhandled_message (JObj fields) w, Ok tt).
Proof.
  intros Hr Hd He. unfold receive. rewrite Hr, Hd.
  unfold handle_websocket_message.
  destruct (dict_get fields "event" JNull); try contradiction; reflexivity.
Qed.

(** X16: a frame that decodes to something other than an object, or to an
    object whose [event] is a list or an object, is not classified at all:
    the pass raises ([AttributeError], [TypeError]) with nothing logged and
    nothing stored, and the supervisor counts the attempt on the generic
    track. *)
Theorem malformed_envelope_raises channel t raw m w :
  recv t = RecvText raw ->
  json_loads raw = Some m ->
  match m with
  | JObj fields =>
      match dict_get fields "event" JNull with
      | JArr _ | JObj _ => True
      | _ => False
      end
  | _ => True
  end ->
  exists e,
    receive json_loads channel t w = (w, Raise e)
    /\ (e = AttributeError \/ e = TypeError)
    /\ generic_failure (Raised e) = true.
Proof.
  intros Hr Hd Hm. unfold receive. rewrite Hr, Hd.
  unfold handle_websocket_message.
  destruct m; try solve [exists AttributeError; auto].
  destruct (dict_get fields "event" JNull); try contradiction;
    exists TypeError; auto.
Qed.

End WithDecoder.

Lemma stop_flag_ends_loop_witness :
  stop_is_set (stop_tick 2) = true
  /\ receive_loop json_loads_ref "xqc"
       ([tick_at 1 PongReceived (RecvText chat_frame)] ++ stop_tick 2 :: garbled_then_chat)
       fresh_loop world0
     = receive_loop json_loads_ref "xqc"
         ([tick_at 1 PongReceived (RecvText chat_frame)] ++ stop_tick 2 :: [])
         fresh_loop world0.
Proof.
  split; [reflexivity|].
  exact (proj1 (stop_flag_ends_loop json_loads_ref "xqc"
                  [tick_at 1 PongReceived (RecvText chat_frame)] (stop_tick 2)
                  garbled_then_chat [] fresh_loop world0 eq_refl)).
Defined.

Lemma answered_pings_keep_session_witness :
  (forall t, In t [tick_at 1201 PongReceived RecvTimeout;
                   tick_at 2402 PongReceived RecvTimeout] ->
     stop_is_set t = false /\ ping t = PongReceived /\ recv t = RecvTimeout)
  /\ (receive_loop json_loads_ref "xqc"
        [tick_at 1201 PongReceived RecvTimeout; tick_at 2402 PongReceived RecvTimeout]
        {| last_ping_time := 0; consecutive_ping_failures := 2 |} world0).2
     = Pending.
Proof.
  assert (H1 : forall t, In t [tick_at 1201 PongReceived RecvTimeout;
                               tick_at 2402 PongReceived RecvTimeout] ->
     stop_is_set t = false /\ ping t = PongReceived /\ recv t = RecvTimeout).
  { intros t [<-|[<-|[]]]; repeat split. }
  split; [exact H1|].
  exact (proj1 (answered_pings_keep_session json_loads_ref "xqc" _
                  {| last_ping_time := 0; consecutive_ping_failures := 2 |}
                  world0 H1)).
Defined.

Lemma nameless_message_is_logged_witness :
  recv (tick_at 1 PongReceived (RecvText (dq "{'data': 7}")))
  = RecvText (dq "{'data': 7}")
  /\ json_loads_ref (dq "{'data': 7}") = Some (JObj [("data", JInt 7)])
  /\ receive json_loads_ref "xqc"
       (tick_at 1 PongReceived (RecvText (dq "{'data': 7}"))) world0
     = (_log_unhandled_message (JObj [("data", JInt 7)]) world0, Ok tt).
Proof.
  assert (H2 : json_loads_ref (dq "{'data': 7}") = Some (JObj [("data", JInt 7)]))
    by (vm_compute; reflexivity).
  split; [reflexivity|]. split; [exact H2|].
  exact (nameless_message_is_logged json_loads_ref "xqc"
           (tick_at 1 PongReceived (RecvText (dq "{'data': 7}")))
           (dq "{'data': 7}") [("data", JInt 7)] world0 eq_refl H2 I).
Defined.

Lemma malformed_envelope_raises_witness :
  json_loads_ref "[1, 2]" = Some (JArr [JInt 1; JInt 2])
  /\ exists e,
       receive json_loads_ref "xqc" (tick_at 1 PongReceived (RecvText "[1, 2]")) world0
       = (world0, Raise e)
       /\ (e = AttributeError \/ e = TypeError)
       /\ generic_failure (Raised e) = true.
Proof.
  assert (H2 : json_loads_ref "[1, 2]" = Some (JArr [JInt 1; JInt 2]))
    by (vm_compute; reflexivity).
  split; [exact H2|].
  exact (malformed_envelope_raises json_loads_ref "xqc"
           (tick_at 1 PongReceived (RecvText "[1, 2]")) "[1, 2]"
           (JArr [JInt 1; JInt 2]) world0 eq_refl H2 I).
Defined.

End LoopFacts.

(* ===================================================================== *)
(** ** More on the supervisor                                             *)
(* ===================================================================== *)

Module SupervisorMore.
Import Config KickApi Listener Cli CliOps Samples JsonRef ListenerFacts
  ListenerMore SupervisorFacts.

(** the delay of the severe track at connection count [k] *)
Lemma severe_delay_bounds k :
  (1 <= k)%Z ->
  let d := if (k <=? 10)%Z
           then Qmin (inject_Z connection_base_delay * (3 # 2) ^ Z.min k 8)%Q 30%Q
           else 30%Q in
  (3 # 2 <= d)%Q /\ (d <= 30)%Q.
Proof.
  intros Hk. cbv zeta. destruct (k <=? 10)%Z eqn:E10.
  - apply Z.leb_le in E10.
    assert (Hc : (k = 1 \/ k = 2 \/ k = 3 \/ k = 4 \/ k = 5 \/ k = 6
                  \/ k = 7 \/ k = 8 \/ k = 9 \/ k = 10)%Z) by lia.
    repeat (destruct Hc as [-> | Hc]; [vm_compute; split; discriminate|]).
    subst k. vm_compute. split; discriminate.
  - vm_compute. split; discriminate.
Qed.

(** X17: on the severe track the retry count is not touched; the
    supervisor gives up when the connection count passes 50, and any delay
    it waits lies between 1.5 and 30 seconds, being exactly 30 from the
    eleventh severe closure on. *)
Theorem severe_backoff_bounds rcvd rs :
  existsb (Z.eqb (closed_code rcvd)) [4200; 1011]%Z = true ->
  (0 <= connection_retry_count rs)%Z ->
  let r := on_connection_closed rcvd rs in
  retry_count r.1 = retry_count rs
  /\ connection_retry_count r.1 = (connection_retry_count rs + 1)%Z
  /\ match r.2 with
     | GiveUp why =>
         why = MaxConnectionRetriesExceeded
         /\ (connection_retry_count rs + 1 > 50)%Z
     | Backoff d =>
         (connection_retry_count rs + 1 <= 50)%Z
         /\ (3 # 2 <= d)%Q /\ (d <= 30)%Q
         /\ ((connection_retry_count rs + 1 > 10)%Z -> d = 30%Q)
     end.
Proof.
  intros Hsev Hnn. cbv zeta. unfold on_connection_closed. cbv zeta.
  rewrite Hsev. unfold max_connection_retries.
  destruct (connection_retry_count rs + 1 >? 50)%Z eqn:E50;
    cbn [fst snd retry_count connection_retry_count].
  - apply Z.gtb_lt in E50. repeat split; lia.
  - rewrite Z.gtb_ltb in E50. apply Z.ltb_ge in E50.
    split; [reflexivity|]. split; [reflexivity|]. split; [exact E50|].
    destruct (severe_delay_bounds (connection_retry_count rs + 1)) as [Hlo Hhi];
      [lia|].
    split; [exact Hlo|]. split; [exact Hhi|].
    intros Hgt.
    replace (connection_retry_count rs + 1 <=? 10)%Z with false
      by (symmetry; apply Z.leb_gt; lia).
    reflexivity.
Qed.

Lemma severe_backoff_bounds_witness :
  existsb (Z.eqb (closed_code (Some {| close_code := 4200; close_reason := "restart" |})))
          [4200; 1011]%Z = true
  /\ (0 <= connection_retry_count rs0)%Z
  /\ retry_count
       (on_connection_closed
          (Some {| close_code := 4200; close_reason := "restart" |}) rs0).1
     = retry_count rs0.
Proof.
  split; [reflexivity|]. split; [simpl; lia|].
  exact (proj1 (severe_backoff_bounds
                  (Some {| close_code := 4200; close_reason := "restart" |}) rs0
                  eq_refl (Z.le_refl 0))).
Defined.

Section WithDecoder.
Variable json_loads : string -> option json.

Lemma supervise_severe_closure channel r rest rs n ds w :
  stop_set r = false -> self_running r = true ->
  severe_closure (listen_to_chat json_loads channel (attempt r) w).2 = true ->
  exists d,
    ((0 <= connection_retry_count rs)%Z -> (d <= 30)%Q) /\
    let w' := (listen_to_chat json_loads channel (attempt r) w).1 in
    let rs' := {| retry_count := retry_count rs;
                  connection_retry_count := connection_retry_count rs + 1 |} in
    supervise json_loads channel (r :: rest) rs n ds w =
      if (connection_retry_count rs + 1 >? 50)%Z then
        {| final := rs'; attempts := S n; delays := ds;
           exit := Stopped MaxConnectionRetriesExceeded; after := w' |}
      else
        match wait r with
        | DelayElapsed =>
            supervise json_loads channel rest rs' (S n) (ds ++ [d]) w'
        | StopSignalled =>
            {| final := rs'; attempts := S n; delays := ds;
               exit := Stopped StopDuringBackoff; after := w' |}
        | WaitCancelled =>
            {| final := rs'; attempts := S n; delays := ds;
               exit := Unwound CancelledError; after := w' |}
        end.
Proof.
  intros Hs Hr Hsev. cbn [supervise]. rewrite Hs, Hr. simpl orb. cbv iota.
  destruct (listen_to_chat json_loads channel (attempt r) w) as [w' o].
  unfold severe_closure in Hsev. cbn [snd fst] in *.
  destruct o as [|e|]; try discriminate.
  destruct e; try discriminate.
  unfold on_connection_closed. cbv zeta. rewrite Hsev.
  unfold max_connection_retries.
  destruct (connection_retry_count rs + 1 >? 50)%Z.
  - exists 30%Q. split; [intros _; vm_compute; discriminate | reflexivity].
  - match goal with
    | |- context [Backoff ?d] => exists d
    end.
    split.
    + intros Hnn.
      destruct (severe_delay_bounds (connection_retry_count rs + 1)) as [_ Hhi];
        [lia | exact Hhi].
    + unfold after_handler. destruct (wait r); reflexivity.
Qed.

Lemma severe_budget_runs_out channel k : forall rounds rs n ds w,
  (0 <= connection_retry_count rs)%Z ->
  (connection_retry_count rs + Z.of_nat (S k) = 51)%Z ->
  (S k <= length rounds)%nat ->
  Forall (fun r =>
            severe_closure
              (listen_to_chat json_loads channel (attempt r) world0).2 = true)
         (firstn (S k) rounds) ->
  Forall (fun d => (d <= 30)%Q) ds ->
  let out := supervise json_loads channel rounds rs n ds w in
  exit out <> StillRunning
  /\ (attempts out <= n + S k)%nat
  /\ retry_count (final out) = retry_count rs
  /\ Forall (fun d => (d <= 30)%Q) (delays out)
  /\ (forallb undisturbed (firstn (S k) rounds) = true ->
      exit out = Stopped MaxConnectionRetriesExceeded
      /\ attempts out = (n + S k)%nat
      /\ connection_retry_count (final out) = 51%Z).
Proof.
  induction k as [|k IH]; intros rounds rs n ds w Hnn Hrc Hlen Hall Hds;
    (destruct rounds as [|r rest]; [simpl in Hlen; lia|]);
    rewrite firstn_cons in *; apply Forall_cons_iff in Hall;
    destruct Hall as [Hr Hrest];
    rewrite (listen_outcome_any_world json_loads channel (attempt r) world0 w) in Hr;
    cbv zeta; cbn [forallb];
    (destruct (stop_set r || negb (self_running r)) eqn:Hc;
     [ rewrite (supervise_loop_test_fails _ _ _ _ _ _ _ _ Hc);
       cbn [exit attempts final delays];
       split; [discriminate|]; split; [lia|]; split; [reflexivity|];
       split; [exact Hds|];
       intros Hu; apply andb_true_iff in Hu; destruct Hu as [Hu _];
       apply undisturbed_inv in Hu; destruct Hu as (Hs & Hrun & _);
       rewrite Hs, Hrun in Hc; discriminate
     | apply orb_false_iff in Hc; destruct Hc as [Hs Hrun];
       apply negb_false_iff in Hrun ]);
    destruct (supervise_severe_closure channel r rest rs n ds w Hs Hrun Hr)
      as (d & Hd & Heq); cbv zeta in Heq; rewrite Heq; clear Heq.
  - replace (connection_retry_count rs + 1 >? 50)%Z with true
      by (symmetry; apply Z.gtb_lt; lia).
    cbn [exit attempts final delays retry_count connection_retry_count].
    repeat split; try discriminate; try assumption; lia.
  - replace (connection_retry_count rs + 1 >? 50)%Z with false
      by (symmetry; rewrite Z.gtb_ltb; apply Z.ltb_ge; lia).
    destruct (wait r) eqn:Hw.
    + cbn [exit attempts final delays retry_count].
      split; [discriminate|]. split; [lia|]. split; [reflexivity|].
      split; [exact Hds|].
      intros Hu. apply andb_true_iff in Hu. destruct Hu as [Hu _].
      apply undisturbed_inv in Hu. destruct Hu as (_ & _ & Hu). congruence.
    + specialize (IH rest
                    {| retry_count := retry_count rs;
                       connection_retry_count := connection_retry_count rs + 1 |}
                    (S n) (ds ++ [d])
                    (listen_to_chat json_loads channel (attempt r) w).1).
      cbv zeta in IH. simpl in Hlen.
      destruct IH as (Hx & Ha & Hrc' & Hdl & Hu);
        [cbn [connection_retry_count]; lia
        | cbn [connection_retry_count]; lia | lia | exact Hrest
        | apply Forall_app; split; [exact Hds | constructor; auto] |].
      split; [exact Hx|]. split; [lia|]. split; [exact Hrc'|].
      split; [exact Hdl|].
      intros Hund. apply andb_true_iff in Hund.
      destruct Hund as [_ Hund]. destruct (Hu Hund) as (E1 & E2 & E3).
      repeat split; [exact E1 | lia | exact E3].
    + cbn [exit attempts final delays retry_count].
      split; [discriminate|]. split; [lia|]. split; [reflexivity|].
      split; [exact Hds|].
      intros Hu. apply andb_true_iff in Hu. destruct Hu as [Hu _].
      apply undisturbed_inv in Hu. destruct Hu as (_ & _ & Hu). congruence.
Qed.

(** X18: when the first 51 attempts of a lifetime all end in severe
    closures, the supervisor has ended by then with the generic retry
    count still at zero and no delay above 30 seconds; undisturbed, it
    gives up for exceeded connection retries after exactly 51 attempts. *)
Theorem severe_closures_exhaust_connection_retries channel rounds w :
  (51 <= length rounds)%nat ->
  Forall (fun r =>
            severe_closure
              (listen_to_chat json_loads channel (attempt r) world0).2 = true)
         (firstn 51 rounds) ->
  let out := supervise json_loads channel rounds rs0 0 [] w in
  exit out <> StillRunning
  /\ (attempts out <= 51)%nat
  /\ retry_count (final out) = 0%Z
  /\ Forall (fun d => (d <= 30)%Q) (delays out)
  /\ (forallb undisturbed (firstn 51 rounds) = true ->
      exit out = Stopped MaxConnectionRetriesExceeded
      /\ attempts out = 51%nat
      /\ connection_retry_count (final out) = 51%Z).
Proof.
  intros Hlen Hall.
  apply (severe_budget_runs_out channel 50 rounds rs0 0%nat [] w); auto.
  simpl. lia.
Qed.

Lemma generic_schedule channel rounds : forall rs n ds w,
  (0 <= retry_count rs)%Z ->
  (retry_count rs + Z.of_nat (length rounds) <= 10)%Z ->
  Forall (fun r =>
            generic_failure
              (listen_to_chat json_loads channel (attempt r) world0).2 = true)
         rounds ->
  forallb undisturbed rounds = true ->
  let out := supervise json_loads channel rounds rs n ds w in
  exit out = StillRunning
  /\ attempts out = (n + length rounds)%nat
  /\ retry_count (final out) = (retry_count rs + Z.of_nat (length rounds))%Z
  /\ delays out
     = ds ++ map (fun i => inject_Z (2 ^ (retry_count rs + Z.of_nat i)))
                 (seq 1 (length rounds)).
Proof.
  induction rounds as [|r rest IH]; intros rs n ds w Hnn Hle Hall Hund; cbv zeta.
  - simpl. rewrite app_nil_r. repeat split; lia.
  - apply Forall_cons_iff in Hall. destruct Hall as [Hr Hrest].
    rewrite (listen_outcome_any_world json_loads channel (attempt r) world0 w) in Hr.
    cbn [forallb] in Hund. apply andb_true_iff in Hund.
    destruct Hund as [Hu Hund]. apply undisturbed_inv in Hu.
    destruct Hu as (Hs & Hrun & Hw).
    destruct (supervise_generic_failure json_loads channel r rest rs n ds w Hs Hrun Hr)
      as (crc & _ & Heq). cbv zeta in Heq. rewrite Heq. clear Heq.
    cbn [length] in *.
    replace (retry_count rs + 1 >? 10)%Z with false
      by (symmetry; rewrite Z.gtb_ltb; apply Z.ltb_ge; lia).
    rewrite Hw.
    specialize (IH {| retry_count := retry_count rs + 1;
                      connection_retry_count := crc |}
                   (S n)
                   (ds ++ [inject_Z (2 * 2 ^ (retry_count rs + 1 - 1))])
                   (listen_to_chat json_loads channel (attempt r) w).1).
    cbv zeta in IH. cbn [retry_count] in IH.
    destruct IH as (E1 & E2 & E3 & E4); [lia | lia | exact Hrest | exact Hund |].
    split; [exact E1|]. split; [lia|]. split; [lia|].
    rewrite E4, <- app_assoc. f_equal. cbn [seq map app]. f_equal.
    + f_equal. replace (retry_count rs + 1 - 1)%Z with (retry_count rs) by lia.
      rewrite <- Z.pow_succ_r by lia. f_equal; try lia.
    + rewrite <- (seq_shift (length rest) 1), map_map. apply map_ext. intros i.
      f_equal. f_equal. lia.
Qed.

(** X19: undisturbed failures on the generic track are waited out with
    doubling delays: after [k] of them in a row, [k] at most ten, the
    supervisor has waited 2, 4, ..., 2^k seconds, has counted [k] retries
    and is ready for the next attempt. *)
Theorem generic_backoff_doubles channel rounds w :
  (length rounds <= 10)%nat ->
  Forall (fun r =>
            generic_failure
              (listen_to_chat json_loads channel (attempt r) world0).2 = true)
         rounds ->
  forallb undisturbed rounds = true ->
  let out := supervise json_loads channel rounds rs0 0 [] w in
  exit out = StillRunning
  /\ attempts out = length rounds
  /\ retry_count (final out) = Z.of_nat (length rounds)
  /\ delays out = map (fun i => inject_Z (2 ^ Z.of_nat i)) (seq 1 (length rounds)).
Proof.
  intros Hlen Hall Hund.
  assert (H0 : (0 <= retry_count rs0)%Z) by (simpl; lia).
  assert (H10 : (retry_count rs0 + Z.of_nat (length rounds) <= 10)%Z)
    by (simpl; lia).
  destruct (generic_schedule channel rounds rs0 0%nat [] w H0 H10 Hall Hund)
    as (E1 & E2 & E3 & E4).
  cbv zeta. split; [exact E1|]. split; [exact E2|]. split; [exact E3|].
  rewrite E4. simpl. reflexivity.
Qed.

Lemma handler_spends_budget rcvd rs :
  (forall d, (on_connection_closed rcvd rs).2 = Backoff d ->
     (S (budget_left (on_connection_closed rcvd rs).1) <= budget_left rs)%nat)
  /\ (forall d, (on_exception rs).2 = Backoff d ->
        (S (budget_left (on_exception rs).1) <= budget_left rs)%nat).
Proof.
  unfold on_connection_closed, on_exception, budget_left,
    max_retries, max_connection_retries. cbv zeta.
  destruct rs as [rc crc]. cbn [retry_count connection_retry_count].
  split.
  - destruct (existsb _ _).
    + destruct (crc + 1 >? 50)%Z eqn:E; [discriminate|].
      rewrite Z.gtb_ltb in E. apply Z.ltb_ge in E.
      intros d _. cbn [fst retry_count connection_retry_count]. lia.
    + destruct (rc + 1 >? 10)%Z eqn:E; [discriminate|].
      rewrite Z.gtb_ltb in E. apply Z.ltb_ge in E.
      intros d _. cbn [fst retry_count connection_retry_count]. lia.
  - destruct (rc + 1 >? 10)%Z eqn:E; [discriminate|].
    rewrite Z.gtb_ltb in E. apply Z.ltb_ge in E.
    intros d _. cbn [fst retry_count connection_retry_count]. lia.
Qed.

Lemma attempts_within_budget channel rounds : forall rs n ds w,
  (attempts (supervise json_loads channel rounds rs n ds w)
   <= n + 1 + budget_left rs)%nat.
Proof.
  induction rounds as [|r rest IH]; intros rs n ds w.
  - simpl. lia.
  - cbn [supervise].
    destruct (stop_set r || negb (self_running r)); [simpl; lia|].
    destruct (listen_to_chat json_loads channel (attempt r) w) as [w' o].
    assert (Hstep : forall rs' v,
              (forall d, v = Backoff d -> (S (budget_left rs') <= budget_left rs)%nat) ->
              (attempts
                 match after_handler v (wait r) with
                 | inl x => {| final := rs'; attempts := S n; delays := ds;
                               exit := x; after := w' |}
                 | inr delay =>
                     supervise json_loads channel rest rs' (S n) (ds ++ [delay]) w'
                 end <= n + 1 + budget_left rs)%nat).
    { intros rs' v Hv. unfold after_handler.
      destruct v as [why|d]; [simpl; lia|].
      specialize (Hv d eq_refl).
      destruct (wait r); try (simpl; lia).
      specialize (IH rs' (S n) (ds ++ [d]) w'). lia. }
    pose proof (handler_spends_budget None rs) as [_ Hex].
    destruct o as [|e|]; [simpl; lia | | simpl; lia].
    destruct e;
      try (cbn [is_Exception]; cbv iota;
           destruct (on_exception rs) as [rs' v] eqn:E;
           apply Hstep; intros d ->; exact (Hex d eq_refl)).
    + pose proof (handler_spends_budget rcvd rs) as [Hcl _].
      destruct (on_connection_closed rcvd rs) as [rs' v] eqn:E.
      apply Hstep. intros d ->. exact (Hcl d eq_refl).
    + simpl. lia.
Qed.

Lemma still_running_used_all_rounds channel rounds : forall rs n ds w,
  Forall (fun r =>
            (listen_to_chat json_loads channel (attempt r) world0).2 <> Pending)
         rounds ->
  exit (supervise json_loads channel rounds rs n ds w) = StillRunning ->
  attempts (supervise json_loads channel rounds rs n ds w) = (n + length rounds)%nat.
Proof.
  induction rounds as [|r rest IH]; intros rs n ds w Hall.
  - simpl. lia.
  - apply Forall_cons_iff in Hall. destruct Hall as [Hr Hrest].
    rewrite (listen_outcome_any_world json_loads channel (attempt r) world0 w) in Hr.
    cbn [supervise].
    destruct (stop_set r || negb (self_running r)); [simpl; discriminate|].
    destruct (listen_to_chat json_loads channel (attempt r) w) as [w' o].
    cbn [snd] in Hr.
    assert (Hstep : forall rs' v,
              let out :=
                match after_handler v (wait r) with
                | inl x => {| final := rs'; attempts := S n; delays := ds;
                              exit := x; after := w' |}
                | inr delay =>
                    supervise json_loads channel rest rs' (S n) (ds ++ [delay]) w'
                end in
              exit out = StillRunning -> attempts out = (n + length (r :: rest))%nat).
    { intros rs' v. cbv zeta. unfold after_handler.
      destruct v as [why|d]; [simpl; discriminate|].
      destruct (wait r); try (simpl; discriminate).
      intros Hx. rewrite (IH rs' (S n) (ds ++ [d]) w' Hrest Hx). simpl. lia. }
    destruct o as [|e|]; [simpl; discriminate | | congruence].
    destruct e;
      try (cbn [is_Exception]; cbv iota;
           destruct (on_exception rs) as [rs' v]; apply Hstep).
    + destruct (on_connection_closed rcvd rs) as [rs' v]. apply Hstep.
    + simpl. discriminate.
Qed.

(** X20: a supervision lifetime is bounded: whatever the sessions do, the
    supervisor calls [listen_to_chat] at most 61 times (ten retries on the
    generic track, fifty on the severe one, and the attempt that ends it);
    given more turns than that, none of them left hanging, it has ended. *)
Theorem supervisor_attempts_bounded channel rounds w :
  let out := supervise json_loads channel rounds rs0 0 [] w in
  (attempts out <= 61)%nat
  /\ ((61 < length rounds)%nat ->
      Forall (fun r =>
                (listen_to_chat json_loads channel (attempt r) world0).2 <> Pending)
             rounds ->
      exit out <> StillRunning).
Proof.
  cbv zeta.
  pose proof (attempts_within_budget channel rounds rs0 0%nat [] w) as Hb.
  change (budget_left rs0) with 60%nat in Hb.
  split; [lia|].
  intros Hlen Hall Hx.
  pose proof (still_running_used_all_rounds channel rounds rs0 0%nat [] w Hall Hx).
  lia.
Qed.

Lemma listen_connections channel s w :
  (connections (listen_to_chat json_loads channel s w).1 <= S (connections w))%nat.
Proof.
  unfold listen_to_chat.
  destruct (get_chatroom_id json_loads (lookup s)) as [cid|e]; [|simpl; lia].
  destruct (negb (truthy cid)); [simpl; lia|].
  destruct (connect s); [|simpl; lia].
  destruct (subscribe s); [|simpl; lia].
  pose proof (receive_loop_keeps_connection json_loads channel (ticks s)
                {| last_ping_time := start_time s; consecutive_ping_failures := 0 |}
                (send_frame (Subscribe cid) (open_connection w))) as Hr.
  destruct Hr as (Hc & _). rewrite Hc. simpl. lia.
Qed.

(** X21: over a whole lifetime the supervisor opens at most one connection
    per attempt. *)
Theorem one_connection_per_attempt channel rounds : forall rs n ds w,
  let out := supervise json_loads channel rounds rs n ds w in
  (connections (after out) + n <= connections w + attempts out)%nat.
Proof.
  induction rounds as [|r rest IH]; intros rs n ds w; cbv zeta.
  - simpl. lia.
  - cbn [supervise].
    destruct (stop_set r || negb (self_running r)); [simpl; lia|].
    pose proof (listen_connections channel (attempt r) w) as Hl.
    destruct (listen_to_chat json_loads channel (attempt r) w) as [w' o].
    cbn [fst] in Hl.
    assert (Hstep : forall rs' v,
              let out :=
                match after_handler v (wait r) with
                | inl x => {| final := rs'; attempts := S n; delays := ds;
                              exit := x; after := w' |}
                | inr delay =>
                    supervise json_loads channel rest rs' (S n) (ds ++ [delay]) w'
                end in
              (connections (after out) + n <= connections w + attempts out)%nat).
    { intros rs' v. cbv zeta.
      destruct (after_handler v (wait r)) as [x|d]; [simpl; lia|].
      specialize (IH rs' (S n) (ds ++ [d]) w'). cbv zeta in IH. lia. }
    destruct o as [|e|]; [simpl; lia | | simpl; lia].
    destruct e;
      try (cbn [is_Exception]; cbv iota;
           destruct (on_exception rs) as [rs' v]; apply Hstep).
    + destruct (on_connection_closed rcvd rs) as [rs' v]. apply Hstep.
    + simpl. lia.
Qed.

End WithDecoder.

Lemma severe_closures_exhaust_connection_retries_witness :
  let restart := RecvClosed (Some {| close_code := 4200; close_reason := "restart" |}) None in
  let rounds := repeat (turn (live_session [tick_at 1 PongReceived restart])) 52 in
  (51 <= length rounds)%nat
  /\ Forall (fun r =>
               severe_closure
                 (listen_to_chat json_loads_ref "xqc" (attempt r) world0).2 = true)
            (firstn 51 rounds)
  /\ exit (supervise json_loads_ref "xqc" rounds rs0 0 [] world0) <> StillRunning.
Proof.
  intros restart rounds.
  assert (H1 : (51 <= length rounds)%nat) by (simpl; lia).
  assert (H2 : Forall (fun r =>
               severe_closure
                 (listen_to_chat json_loads_ref "xqc" (attempt r) world0).2 = true)
            (firstn 51 rounds))
    by (repeat (constructor; [vm_compute; reflexivity|]); constructor).
  split; [exact H1|]. split; [exact H2|].
  exact (proj1 (severe_closures_exhaust_connection_retries
                  json_loads_ref "xqc" rounds world0 H1 H2)).
Defined.

Lemma generic_backoff_doubles_witness :
  let rounds := repeat (turn chat_then_drop) 3 in
  (length rounds <= 10)%nat
  /\ Forall (fun r =>
               generic_failure
                 (listen_to_chat json_loads_ref "xqc" (attempt r) world0).2 = true)
            rounds
  /\ forallb undisturbed rounds = true
  /\ delays (supervise json_loads_ref "xqc" rounds rs0 0 [] world0)
     = map (fun i => inject_Z (2 ^ Z.of_nat i)) (seq 1 (length rounds)).
Proof.
  intros rounds.
  assert (H1 : (length rounds <= 10)%nat) by (simpl; lia).
  assert (H2 : Forall (fun r =>
               generic_failure
                 (listen_to_chat json_loads_ref "xqc" (attempt r) world0).2 = true)
            rounds)
    by (repeat (constructor; [vm_compute; reflexivity|]); constructor).
  assert (H3 : forallb undisturbed rounds = true) by reflexivity.
  split; [exact H1|]. split; [exact H2|]. split; [exact H3|].
  exact (proj2 (proj2 (proj2 (generic_backoff_doubles
                                json_loads_ref "xqc" rounds world0 H1 H2 H3)))).
Defined.

End SupervisorMore.

(* ===================================================================== *)
(** ** More on the registry and the command line                          *)
(* ===================================================================== *)

Module CliOpsFacts.
Import Sanitize KickApi Listener Cli CliOps Samples JsonRef.

Lemma set_stop_event_lookup name self c :
  is_Some (stop_events (set_stop_event name self) !! c)
  <-> is_Some (stop_events self !! c).
Proof.
  unfold set_stop_event. cbn [stop_events].
  destruct (stop_events self !! name) eqn:E; [|reflexivity].
  destruct (decide (name = c)) as [->|Hne].
  - rewrite lookup_insert_eq, E. split; eauto.
  - rewrite lookup_insert_ne by exact Hne. reflexivity.
Qed.

Lemma registry_wf_set_stop_event name self :
  registry_wf self -> registry_wf (set_stop_event name self).
Proof.
  intros (Hp & Hlt & Hinj). split; [|split].
  - intros c. rewrite set_stop_event_lookup. apply Hp.
  - exact Hlt.
  - exact Hinj.
Qed.

Lemma registry_wf_epilogue name self :
  registry_wf self -> registry_wf (supervisor_epilogue name self).
Proof.
  intros (Hp & Hlt & Hinj). unfold supervisor_epilogue.
  split; [|split]; cbn [active_tasks stop_events next_task].
  - intros c. destruct (decide (name = c)) as [->|Hne].
    + rewrite !lookup_delete_eq. split; intros [x Hx]; discriminate.
    + rewrite !lookup_delete_ne by exact Hne. apply Hp.
  - intros c t Hc. apply lookup_delete_Some in Hc. destruct Hc as [_ Hc].
    eapply Hlt. exact Hc.
  - intros c1 c2 t H1 H2.
    apply lookup_delete_Some in H1. apply lookup_delete_Some in H2.
    destruct H1 as [_ H1], H2 as [_ H2]. eapply Hinj; eassumption.
Qed.

Lemma registry_wf_start name self :
  registry_wf self -> registry_wf (start_channel_scraping name self).1.
Proof.
  intros (Hp & Hlt & Hinj). unfold start_channel_scraping.
  destruct (active_tasks self !! name) eqn:E; [repeat split; auto; apply Hp|].
  split; [|split]; cbn [fst active_tasks stop_events next_task].
  - intros c. destruct (decide (name = c)) as [->|Hne].
    + rewrite !lookup_insert_eq. split; eauto.
    + rewrite !lookup_insert_ne by exact Hne. apply Hp.
  - intros c t Hc. apply lookup_insert_Some in Hc.
    destruct Hc as [[_ <-]|[_ Hc]]; [lia|]. specialize (Hlt c t Hc). lia.
  - intros c1 c2 t H1 H2.
    apply lookup_insert_Some in H1. apply lookup_insert_Some in H2.
    destruct H1 as [[<- <-]|[Hn1 H1]], H2 as [[<- E2]|[Hn2 H2]]; auto.
    + specialize (Hlt c2 _ H2). lia.
    + subst t. specialize (Hlt c1 _ H1). lia.
    + eapply Hinj; eassumption.
Qed.

Lemma registry_wf_stop name sc self :
  registry_wf self -> registry_wf (stop_channel_scraping name sc self).1.
Proof.
  intros Hwf. unfold stop_channel_scraping.
  destruct (active_tasks self !! name); [|exact Hwf].
  pose proof (registry_wf_set_stop_event name self Hwf) as Hs.
  pose proof (registry_wf_epilogue name _ Hs) as He.
  destruct (grace_wait sc); [exact He | | exact Hs].
  destruct (cancel_wait sc); [exact He | exact Hs | exact Hs].
Qed.

Lemma registry_wf_empty : registry_wf empty_logger.
Proof.
  split; [|split]; simpl.
  - intros c. rewrite !lookup_empty. split; intros [x Hx]; discriminate.
  - intros c t Hc. rewrite lookup_empty in Hc. discriminate.
  - intros c1 c2 t Hc. rewrite lookup_empty in Hc. discriminate.
Qed.

(** X22: the registry keeps its shape under every operation on it: a
    channel has a task exactly when it has a stop event, every handle in
    use was handed out earlier, and no two channels hold the same handle.
    A registry of this shape (the empty one is) still has it after start,
    after stop on every path, and after the supervisor's own epilogue. *)
Theorem registry_wf_preserved name sc self :
  registry_wf self ->
  registry_wf (start_channel_scraping name self).1
  /\ registry_wf (stop_channel_scraping name sc self).1
  /\ registry_wf (supervisor_epilogue name self).
Proof.
  intros Hwf. split; [|split].
  - apply registry_wf_start. exact Hwf.
  - apply registry_wf_stop. exact Hwf.
  - apply registry_wf_epilogue. exact Hwf.
Qed.

(** X23: pausing a supervised channel whose supervisor exits in time takes
    its entry out and passes on what the storage answered; resuming it
    afterwards, once the storage agrees, registers a task with a new
    handle and a new, unset stop event; when the storage refuses, nothing
    is started. *)
Theorem cli_pause_then_resume_restarts name sc storage_paused self task :
  registry_wf self ->
  active_tasks self !! name = Some task ->
  grace_wait sc = AwaitReturns ->
  let paused := pause_channel name sc storage_paused self in
  let resumed := resume_channel name true paused.1 in
  paused.2 = Ok storage_paused
  /\ active_tasks paused.1 !! name = None
  /\ stop_events paused.1 !! name = None
  /\ resumed.2 = true
  /\ active_tasks resumed.1 !! name = Some (next_task self)
  /\ next_task self <> task
  /\ stop_events resumed.1 !! name = Some false
  /\ resume_channel name false paused.1 = (paused.1, false).
Proof.
  intros (_ & Hlt & _) Ht Hg. cbv zeta.
  unfold pause_channel, stop_channel_scraping. rewrite Ht, Hg.
  cbn [fst snd]. unfold resume_channel, start_channel_scraping.
  cbn [negb supervisor_epilogue set_stop_event active_tasks stop_events next_task].
  rewrite lookup_delete_eq. cbn [fst snd active_tasks stop_events].
  rewrite !lookup_insert_eq, !lookup_delete_eq.
  specialize (Hlt name task Ht).
  repeat split; auto. lia.
Qed.

Lemma load_is_fold active_channels self :
  load_and_start_active_channels active_channels self
  = fold_left (fun s c => (start_channel_scraping c s).1) active_channels self.
Proof. destruct active_channels; reflexivity. Qed.

Lemma start_keeps_running_tasks name self c t :
  active_tasks self !! c = Some t ->
  active_tasks (start_channel_scraping name self).1 !! c = Some t.
Proof.
  intros Hc. unfold start_channel_scraping.
  destruct (active_tasks self !! name) eqn:E; [exact Hc|].
  cbn [fst active_tasks]. rewrite lookup_insert_ne; [exact Hc|].
  intros ->. congruence.
Qed.

Lemma start_other name self c :
  c <> name ->
  active_tasks (start_channel_scraping name self).1 !! c = active_tasks self !! c.
Proof.
  intros Hne. unfold start_channel_scraping.
  destruct (active_tasks self !! name); [reflexivity|].
  cbn [fst active_tasks]. apply lookup_insert_ne. congruence.
Qed.

Lemma fold_start_facts l : forall self,
  let self' := fold_left (fun s c => (start_channel_scraping c s).1) l self in
  (forall c t, active_tasks self !! c = Some t -> active_tasks self' !! c = Some t)
  /\ (forall c, c ∈ l -> is_Some (active_tasks self' !! c))
  /\ (forall c, c ∉ l -> active_tasks self' !! c = active_tasks self !! c).
Proof.
  induction l as [|a l IH]; intros self; cbv zeta.
  - simpl. split; [auto|]. split; [|auto].
    intros c Hc. apply elem_of_nil in Hc. destruct Hc.
  - cbn [fold_left].
    destruct (IH (start_channel_scraping a self).1) as (Hk & Hin & Hout).
    split; [|split].
    + intros c t Hc. apply Hk. apply start_keeps_running_tasks. exact Hc.
    + intros c Hc. apply elem_of_cons in Hc. destruct Hc as [->|Hc]; [|auto].
      destruct (RegistryFacts.start_registers a self) as [t Ht].
      exists t. apply Hk. exact Ht.
    + intros c Hc. apply not_elem_of_cons in Hc. destruct Hc as [Hne Hc].
      rewrite (Hout c Hc). apply start_other. exact Hne.
Qed.

Lemma fold_start_noop l : forall self,
  (forall c, c ∈ l -> is_Some (active_tasks self !! c)) ->
  fold_left (fun s c => (start_channel_scraping c s).1) l self = self.
Proof.
  induction l as [|a l IH]; intros self Hall; [reflexivity|].
  cbn [fold_left]. destruct (Hall a) as [t Ht]; [apply elem_of_cons; auto|].
  rewrite (RegistryFacts.start_when_supervised a self t Ht). cbn [fst].
  apply IH. intros c Hc. apply Hall. apply elem_of_cons. auto.
Qed.

(** X24: [load_and_start_active_channels] leaves every listed channel
    supervised, keeps the task of every channel that was running, touches
    no channel that is not listed, and done a second time with the same
    list changes nothing (a name listed twice is started once). *)
Theorem load_and_start_supervises_all active_channels self :
  let self' := load_and_start_active_channels active_channels self in
  (forall c, c ∈ active_channels -> is_Some (active_tasks self' !! c))
  /\ (forall c t, active_tasks self !! c = Some t -> active_tasks self' !! c = Some t)
  /\ (forall c, c ∉ active_channels ->
        active_tasks self' !! c = active_tasks self !! c)
  /\ load_and_start_active_channels active_channels self' = self'.
Proof.
  cbv zeta. rewrite !load_is_fold.
  destruct (fold_start_facts active_channels self) as (Hk & Hin & Hout).
  split; [exact Hin|]. split; [exact Hk|]. split; [exact Hout|].
  apply fold_start_noop. exact Hin.
Qed.

Lemma stop_clean_active name sc self :
  grace_wait sc = AwaitReturns ->
  exists u,
    (stop_channel_scraping name sc self).2 = Ok u
    /\ active_tasks (stop_channel_scraping name sc self).1
       = delete name (active_tasks self)
    /\ running (stop_channel_scraping name sc self).1 = running self
    /\ (forall c, is_Some (stop_events (stop_channel_scraping name sc self).1 !! c) ->
          is_Some (stop_events self !! c)
          /\ (is_Some (active_tasks self !! name) -> c <> name)).
Proof.
  intros Hg. unfold stop_channel_scraping.
  destruct (active_tasks self !! name) eqn:E.
  - rewrite Hg. exists true. cbn [fst snd supervisor_epilogue active_tasks running stop_events].
    repeat split; auto.
    + destruct H as [x Hx]. apply lookup_delete_Some in Hx. destruct Hx as [_ Hx].
      apply (set_stop_event_lookup name self c). eauto.
    + intros _ ->. destruct H as [x Hx]. rewrite lookup_delete_eq in Hx. discriminate.
  - exists false. cbn [fst snd]. repeat split; auto.
    + symmetry. apply delete_id. exact E.
    + intros [x Hx]. discriminate.
Qed.

Lemma stop_all_clean keys scripts : forall self,
  (forall c, c ∈ keys -> grace_wait (scripts c) = AwaitReturns) ->
  (forall c, is_Some (stop_events self !! c) -> is_Some (active_tasks self !! c)) ->
  let r := stop_all keys scripts self in
  r.2 = Ok tt
  /\ running r.1 = running self
  /\ (forall c, c ∈ keys -> active_tasks r.1 !! c = None)
  /\ (forall c, c ∉ keys -> active_tasks r.1 !! c = active_tasks self !! c)
  /\ (forall c, is_Some (stop_events r.1 !! c) -> is_Some (active_tasks r.1 !! c)).
Proof.
  induction keys as [|k keys IH]; intros self Hclean Hpair; cbv zeta.
  - simpl. repeat split; auto. intros c Hc. apply elem_of_nil in Hc. destruct Hc.
  - cbn [stop_all].
    destruct (stop_clean_active k (scripts k) self) as (u & Hu & Ha & Hrun & Hev);
      [apply Hclean; apply elem_of_cons; auto|].
    destruct (stop_channel_scraping k (scripts k) self) as [self1 r1].
    cbn [fst snd] in *. subst r1.
    destruct (IH self1) as (Hok & Hr & Hin & Hout & Hp).
    { intros c Hc. apply Hclean. apply elem_of_cons. auto. }
    { intros c Hc. destruct (Hev c Hc) as [Hs Hne].
      rewrite Ha. specialize (Hpair c Hs).
      destruct (decide (c = k)) as [->|Hck].
      - exfalso. apply (Hne Hpair). reflexivity.
      - rewrite lookup_delete_ne by congruence. exact Hpair. }
    split; [exact Hok|]. split; [congruence|]. split; [|split].
    + intros c Hc. destruct (decide (c ∈ keys)) as [Hk|Hk]; [auto|].
      rewrite (Hout c Hk), Ha. apply elem_of_cons in Hc.
      destruct Hc as [->|Hc]; [apply lookup_delete_eq | contradiction].
    + intros c Hc. apply not_elem_of_cons in Hc. destruct Hc as [Hne Hc].
      rewrite (Hout c Hc), Ha. apply lookup_delete_ne. congruence.
    + exact Hp.
Qed.

(** X25: when the snapshot lists every supervised channel and every
    supervisor exits within its grace period, [shutdown] returns with the
    running flag down and nothing left in the registry: no task and no
    stop event. *)
Theorem shutdown_leaves_nothing keys scripts self :
  (forall c, is_Some (active_tasks self !! c) -> c ∈ keys) ->
  (forall c, c ∈ keys -> grace_wait (scripts c) = AwaitReturns) ->
  (forall c, is_Some (stop_events self !! c) -> is_Some (active_tasks self !! c)) ->
  let r := shutdown keys scripts self in
  r.2 = Ok tt
  /\ running r.1 = false
  /\ active_tasks r.1 = ∅
  /\ stop_events r.1 = ∅.
Proof.
  intros Hkeys Hclean Hpair. cbv zeta. unfold shutdown.
  destruct (stop_all_clean keys scripts (set_running false self) Hclean Hpair)
    as (Hok & Hr & Hin & Hout & Hp).
  assert (Hempty : active_tasks (stop_all keys scripts (set_running false self)).1 = ∅).
  { apply map_eq. intros c. rewrite lookup_empty.
    destruct (decide (c ∈ keys)) as [Hk|Hk]; [auto|].
    rewrite (Hout c Hk). cbn [set_running active_tasks].
    destruct (active_tasks self !! c) eqn:E; [|reflexivity].
    exfalso. apply Hk. apply Hkeys. eauto. }
  split; [exact Hok|]. split; [exact Hr|]. split; [exact Hempty|].
  apply map_eq. intros c. rewrite lookup_empty.
  destruct (stop_events _ !! c) eqn:E; [|reflexivity].
  destruct (Hp c) as [x Hx]; [eauto|]. rewrite Hempty, lookup_empty in Hx.
  discriminate.
Qed.

(** X26: the registry is keyed by the name as it is spelled: nothing
    sanitizes the key, so starting two spellings that are not equal gives
    two tasks with two handles, whether or not both spellings sanitize to
    one storage name. *)
Theorem registry_keyed_by_spelling a b self :
  a <> b ->
  active_tasks self !! a = None ->
  active_tasks self !! b = None ->
  let both := (start_channel_scraping b (start_channel_scraping a self).1).1 in
  active_tasks both !! a = Some (next_task self)
  /\ active_tasks both !! b = Some (S (next_task self))
  /\ size (active_tasks both) = S (S (size (active_tasks self))).
Proof.
  intros Hne Ha Hb. cbv zeta. unfold start_channel_scraping. rewrite Ha.
  cbn [fst active_tasks next_task stop_events].
  rewrite lookup_insert_ne, Hb by exact Hne.
  cbn [fst active_tasks].
  rewrite lookup_insert_ne by congruence.
  rewrite !lookup_insert_eq.
  repeat split.
  rewrite !map_size_insert_None; auto.
  rewrite lookup_insert_ne by exact Hne. exact Hb.
Qed.

Section WithDecoder.
Variable json_loads : string -> option json.

(** X27: [add_channel] of the command line answers [True] for a channel
    the storage already knows and starts nothing for it; it changes the
    registry only when the channel was unknown, the lookup was answered
    with a decodable 200 page and the storage accepted the channel, and it
    then answers [True]. *)
Theorem cli_add_channel_starts_only_new name exists_in_storage http storage_added self :
  let r := add_channel json_loads name exists_in_storage http storage_added self in
  (exists_in_storage = true -> r = (self, Ok true))
  /\ (r.1 <> self ->
      exists_in_storage = false /\ storage_added = true
      /\ (exists body d, http = HttpResponse 200 body /\ json_loads body = Some d)
      /\ active_tasks self !! name = None
      /\ r.2 = Ok true).
Proof.
  cbv zeta. unfold add_channel. split.
  - intros ->. reflexivity.
  - destruct exists_in_storage; [intros Hc; exfalso; apply Hc; reflexivity|].
    destruct http as [status body| |]; cbn [get_channel_info];
      try (intros Hc; exfalso; apply Hc; reflexivity).
    unfold _handle_channel_response.
    destruct (Z.eqb_spec status 200) as [->|Hne].
    + destruct (json_loads body) as [d|] eqn:Ed; cbn [success negb];
        [|intros Hc; exfalso; apply Hc; reflexivity].
      destruct storage_added; cbn [negb];
        [|intros Hc; exfalso; apply Hc; reflexivity].
      unfold start_channel_scraping.
      destruct (active_tasks self !! name) eqn:E;
        [intros Hc; exfalso; apply Hc; reflexivity|].
      intros _. cbn [snd]. repeat split; eauto.
    + destruct (status =? 403)%Z; [|destruct (status =? 404)%Z];
        cbn [success negb]; intros Hc; exfalso; apply Hc; reflexivity.
Qed.

End WithDecoder.

Lemma split_ws_nil s : forall cur,
  split_ws s cur = [] <-> cur = [] /\ forallb is_space s = true.
Proof.
  induction s as [|c r IH]; intros cur; simpl.
  - destruct cur; split; [auto | auto | discriminate | intros [? _]; discriminate].
  - destruct (is_space c); simpl.
    + destruct cur; [apply IH|]. split; [discriminate | intros [? _]; discriminate].
    + rewrite IH. split; intros [? ?]; discriminate.
Qed.

Section WithUnicode.
Context `{PyUnicode}.

(** X28: [handle_command] raises ([IndexError] on [parts[0]]) exactly for
    a line that is not empty and consists of whitespace only; the empty
    line is ignored, and every line with a visible character is
    dispatched. *)
Theorem handle_command_raises_iff_blank command :
  handle_command command = RaisesIndexError
  <-> command <> [] /\ forallb is_space command = true.
Proof.
  unfold handle_command. destruct command as [|c r].
  - split; [discriminate | intros [Hc _]; congruence].
  - destruct (str_split (c :: r)) as [|part0 args] eqn:Es.
    + apply split_ws_nil in Es. destruct Es as [_ Es].
      split; [intros _; split; [discriminate | exact Es] | reflexivity].
    + assert (Hn : ~ (forallb is_space (c :: r) = true)).
      { intros Hs. assert (Hnil : str_split (c :: r) = [])
          by (apply split_ws_nil; auto).
        congruence. }
      split; [|intros [_ Hs]; contradiction].
      repeat match goal with
             | |- context [if ?b then _ else _] => destruct b
             end; discriminate.
Qed.

End WithUnicode.

Lemma cli_pause_then_resume_restarts_witness :
  let started := (start_channel_scraping "xqc" empty_logger).1 in
  let clean := {| grace_wait := AwaitReturns; cancel_wait := AwaitReturns |} in
  registry_wf started
  /\ active_tasks started !! "xqc" = Some 0
  /\ (pause_channel "xqc" clean true started).2 = Ok true.
Proof.
  intros started clean.
  assert (H1 : registry_wf started)
    by (apply registry_wf_start; exact registry_wf_empty).
  assert (H2 : active_tasks started !! "xqc" = Some 0) by (vm_compute; reflexivity).
  split; [exact H1|]. split; [exact H2|].
  exact (proj1 (cli_pause_then_resume_restarts "xqc" clean true started 0
                  H1 H2 eq_refl)).
Defined.

Lemma registry_wf_preserved_witness :
  registry_wf empty_logger
  /\ registry_wf (start_channel_scraping "xqc" empty_logger).1.
Proof.
  split; [exact registry_wf_empty|].
  exact (proj1 (registry_wf_preserved "xqc"
                  {| grace_wait := AwaitTimeout; cancel_wait := AwaitTimeout |}
                  empty_logger registry_wf_empty)).
Defined.

Lemma shutdown_leaves_nothing_witness :
  let started := (start_channel_scraping "xqc" empty_logger).1 in
  let clean := fun _ : string =>
                 {| grace_wait := AwaitReturns; cancel_wait := AwaitReturns |} in
  (forall c, is_Some (active_tasks started !! c) -> c ∈ ["xqc"])
  /\ (shutdown ["xqc"] clean started).2 = Ok tt.
Proof.
  intros started clean.
  assert (Ha : active_tasks started = <["xqc" := 0]> ∅) by reflexivity.
  assert (He : stop_events started = <["xqc" := false]> ∅) by reflexivity.
  assert (H1 : forall c, is_Some (active_tasks started !! c) -> c ∈ ["xqc"]).
  { intros c [t Ht]. rewrite Ha in Ht.
    apply lookup_insert_Some in Ht. destruct Ht as [[<- _]|[_ Ht]].
    - apply elem_of_cons. left. reflexivity.
    - rewrite lookup_empty in Ht. discriminate. }
  assert (H3 : forall c, is_Some (stop_events started !! c) ->
                         is_Some (active_tasks started !! c)).
  { intros c [t Ht]. rewrite He in Ht. rewrite Ha.
    apply lookup_insert_Some in Ht. destruct Ht as [[<- _]|[_ Ht]].
    - rewrite lookup_insert_eq. eauto.
    - rewrite lookup_empty in Ht. discriminate. }
  split; [exact H1|].
  exact (proj1 (shutdown_leaves_nothing ["xqc"] clean started H1
                  (fun _ _ => eq_refl) H3)).
Defined.

Lemma registry_keyed_by_spelling_witness :
  "XQC" <> "xqc"
  /\ sanitize_channel_name (pystr_of "XQC") = sanitize_channel_name (pystr_of "xqc")
  /\ size (active_tasks
             (start_channel_scraping "xqc"
                (start_channel_scraping "XQC" empty_logger).1).1) = 2.
Proof.
  assert (H1 : "XQC" <> "xqc") by discriminate.
  split; [exact H1|]. split; [reflexivity|].
  exact (proj2 (proj2 (registry_keyed_by_spelling "XQC" "xqc" empty_logger
                         H1 eq_refl eq_refl))).
Defined.

End CliOpsFacts.
